(** * Salyte Beacon backend: authentication middleware, auth routes, user
      model and global error handler, embedded in Rocq.

    Sources embedded here:
    - [backend/middleware/auth.js]  (auth, optionalAuth, authorize,
      requirePermission, checkApiQuota, requireEmailVerification,
      userRateLimit)
    - [backend/models/user.js]      (schema validators, toJSON, hasPermission,
      updateApiUsage)
    - [backend/routes/auth.js]      (POST /signup, /login, /forgot-password)
    - [backend/server.js]           (global error handler)

    Conventions.  JavaScript numbers that the code uses as counters, HTTP
    statuses and millisecond timestamps are integers [Z].  JavaScript strings
    are [string]; every character stands for one UTF-16 code unit below 256.
    Code that awaits a third-party library (jsonwebtoken, bcryptjs, the
    Mongoose driver) receives the library as a field of the record [Env]; a
    call either returns or throws, which is the sum type [Exc]. *)

From Stdlib Require Import ZArith Lia Ascii String List Bool.
From stdpp Require Import base option gmap strings list fin_maps pretty.

Open Scope string_scope.
Open Scope Z_scope.

Set Warnings "-register-all".

(** ** JavaScript values used by the handlers *)

Module Js.

(** A JSON value, as sent by [res.json] or returned by [toObject]. *)
Inductive Json : Type :=
| JNull
| JBool (b : bool)
| JNum (z : Z)
| JStr (s : string)
| JArr (items : list Json)
| JObj (fields : list (string * Json)).

(** An [Error] object: the properties the handlers read. *)
Record Error : Type := mkError {
  err_name : string;
  err_code : option string;
  err_status : option Z;
  err_message : string
}.

(** A call that returns a value or throws. *)
Inductive Exc (A : Type) : Type :=
| Ok (a : A)
| Throw (e : Error).
Arguments Ok {A} a.
Arguments Throw {A} e.

(** Truthiness of a value that is a string or [undefined]. *)
Definition truthy (v : option string) : bool :=
  match v with
  | Some s => negb (String.eqb s "")
  | None => false
  end.

(** [a || b] *)
Definition or (a b : option string) : option string :=
  if truthy a then a else b.

(** [s.replace(pat, rep)] with a string pattern: the first occurrence only. *)
Fixpoint replace (pat rep s : string) : string :=
  if String.prefix pat s
  then rep ++ String.substring (String.length pat)
                               (String.length s - String.length pat) s
  else match s with
       | EmptyString => EmptyString
       | String c s' => String c (replace pat rep s')
       end.

(** White space ([\s], [trim]) among the code units below 256:
    TAB, LF, VT, FF, CR, SPACE and NBSP. *)
Definition is_space (c : ascii) : bool :=
  let n := N_of_ascii c in
  ((9 <=? n) && (n <=? 13) || (n =? 32) || (n =? 160))%N.

Fixpoint trim_start (s : string) : string :=
  match s with
  | String c s' => if is_space c then trim_start s' else s
  | EmptyString => EmptyString
  end.

Fixpoint trim_end (s : string) : string :=
  match s with
  | String c s' =>
      match trim_end s' with
      | EmptyString => if is_space c then EmptyString else String c EmptyString
      | t => String c t
      end
  | EmptyString => EmptyString
  end.

Definition trim (s : string) : string := trim_end (trim_start s).

(** [toLowerCase] on code units below 256: A-Z and the accented capitals
    0xC0-0xDE (0xD7, the multiplication sign, apart) move up by 32. *)
Definition lower_char (c : ascii) : ascii :=
  let n := N_of_ascii c in
  if ((65 <=? n) && (n <=? 90)
      || (192 <=? n) && (n <=? 222) && negb (n =? 215))%N
  then ascii_of_N (n + 32) else c.

Fixpoint toLowerCase (s : string) : string :=
  match s with
  | String c s' => String (lower_char c) (toLowerCase s')
  | EmptyString => EmptyString
  end.

(** [s.length] *)
Definition length (s : string) : Z := Z.of_nat (String.length s).

(** [arr.includes(x)] on an array of strings. *)
Definition includes (arr : list string) (x : string) : bool :=
  existsb (String.eqb x) arr.

End Js.

(** ** Regular expressions

    The regex literals of the source are anchored on both sides and use only
    classes, concatenation, repetition and groups, so [test] decides
    membership of the whole string; it is computed with derivatives. *)

Module Regex.

Inductive regex : Type :=
| Void
| Eps
| Cls (p : ascii -> bool)
| Cat (r1 r2 : regex)
| Alt (r1 r2 : regex)
| Star (r : regex).

Fixpoint nullable (r : regex) : bool :=
  match r with
  | Void => false
  | Eps => true
  | Cls _ => false
  | Cat r1 r2 => nullable r1 && nullable r2
  | Alt r1 r2 => nullable r1 || nullable r2
  | Star _ => true
  end.

Fixpoint deriv (c : ascii) (r : regex) : regex :=
  match r with
  | Void => Void
  | Eps => Void
  | Cls p => if p c then Eps else Void
  | Cat r1 r2 =>
      if nullable r1
      then Alt (Cat (deriv c r1) r2) (deriv c r2)
      else Cat (deriv c r1) r2
  | Alt r1 r2 => Alt (deriv c r1) (deriv c r2)
  | Star r1 => Cat (deriv c r1) (Star r1)
  end.

(** [/^r$/.test(s)] *)
Fixpoint test (r : regex) (s : string) : bool :=
  match s with
  | EmptyString => nullable r
  | String c s' => test (deriv c r) s'
  end.

(** The strings a regular expression denotes. *)
Inductive matches : regex -> string -> Prop :=
| MEps : matches Eps ""
| MCls p c : p c = true -> matches (Cls p) (String c "")
| MCat r1 r2 s1 s2 :
    matches r1 s1 -> matches r2 s2 -> matches (Cat r1 r2) (s1 ++ s2)
| MAltL r1 r2 s : matches r1 s -> matches (Alt r1 r2) s
| MAltR r1 r2 s : matches r2 s -> matches (Alt r1 r2) s
| MStar0 r : matches (Star r) ""
| MStarS r s1 s2 :
    matches r s1 -> matches (Star r) s2 -> matches (Star r) (s1 ++ s2).

Definition Plus (r : regex) : regex := Cat r (Star r).
Definition Opt (r : regex) : regex := Alt Eps r.
Definition Chr (c : ascii) : regex := Cls (Ascii.eqb c).

(** [r{0,n}] *)
Fixpoint UpTo (n : nat) (r : regex) : regex :=
  match n with
  | O => Eps
  | S n' => Opt (Cat r (UpTo n' r))
  end.

Definition in_range (lo hi : N) (c : ascii) : bool :=
  let n := N_of_ascii c in ((lo <=? n) && (n <=? hi))%N.

(** [\d], [\w] *)
Definition digit (c : ascii) : bool := in_range 48 57 c.
Definition word (c : ascii) : bool :=
  in_range 65 90 c || in_range 97 122 c || digit c || Ascii.eqb c "_".

End Regex.

(** ** jsonwebtoken: the payload the routes sign and the middleware decodes *)

Module Jwt.
Record Payload : Type := mkPayload {
  userId : string;
  email : string;
  role : string
}.
End Jwt.

(** ** backend/models/user.js *)

(** One element of [permissions]. *)
Record Permission : Type := mkPermission {
  resource : string;
  actions : list string
}.

(** [subscription.type], an enum of the schema. *)
Inductive SubscriptionType : Type := free | basic | premium | enterprise.

Record ApiUsage : Type := mkApiUsage {
  dailyRequests : Z;
  monthlyRequests : Z;
  lastRequestDate : option Z;
  quotaExceeded : bool
}.

(** A user document: the schema paths that the embedded code reads or
    writes.  Dates are millisecond timestamps; a path that is [undefined] on
    the document is [None].  [lastActive] is [activity.lastActive],
    [newsletter] is [preferences.newsletter] and [subscription_type] is
    [subscription.type]. *)
Record UserDoc : Type := mkUserDoc {
  _id : string;
  firstName : string;
  lastName : string;
  email : string;
  phone : option string;
  password : option string;
  role : string;
  isVerified : bool;
  location : option string;
  newsletter : bool;
  loginAttempts : Z;
  lastLoginAttempt : option Z;
  lastLogin : option Z;
  passwordResetToken : option string;
  passwordResetExpires : option Z;
  emailVerificationToken : option string;
  emailVerificationExpires : option Z;
  lastActive : Z;
  subscription_type : SubscriptionType;
  permissions : list Permission;
  apiUsage : ApiUsage;
  createdAt : option Z
}.

(** Field updates, written as the assignments of the source. *)
Definition set_loginAttempts (n : Z) (u : UserDoc) : UserDoc :=
  mkUserDoc (_id u) (firstName u) (lastName u) (email u) (phone u) (password u)
    (role u) (isVerified u) (location u) (newsletter u) n (lastLoginAttempt u)
    (lastLogin u) (passwordResetToken u) (passwordResetExpires u)
    (emailVerificationToken u) (emailVerificationExpires u) (lastActive u)
    (subscription_type u) (permissions u) (apiUsage u) (createdAt u).

Definition set_lastLoginAttempt (t : Z) (u : UserDoc) : UserDoc :=
  mkUserDoc (_id u) (firstName u) (lastName u) (email u) (phone u) (password u)
    (role u) (isVerified u) (location u) (newsletter u) (loginAttempts u) (Some t)
    (lastLogin u) (passwordResetToken u) (passwordResetExpires u)
    (emailVerificationToken u) (emailVerificationExpires u) (lastActive u)
    (subscription_type u) (permissions u) (apiUsage u) (createdAt u).

Definition set_lastLogin (t : Z) (u : UserDoc) : UserDoc :=
  mkUserDoc (_id u) (firstName u) (lastName u) (email u) (phone u) (password u)
    (role u) (isVerified u) (location u) (newsletter u) (loginAttempts u)
    (lastLoginAttempt u) (Some t) (passwordResetToken u) (passwordResetExpires u)
    (emailVerificationToken u) (emailVerificationExpires u) (lastActive u)
    (subscription_type u) (permissions u) (apiUsage u) (createdAt u).

Definition set_passwordReset (tok : string) (expires : Z) (u : UserDoc) : UserDoc :=
  mkUserDoc (_id u) (firstName u) (lastName u) (email u) (phone u) (password u)
    (role u) (isVerified u) (location u) (newsletter u) (loginAttempts u)
    (lastLoginAttempt u) (lastLogin u) (Some tok) (Some expires)
    (emailVerificationToken u) (emailVerificationExpires u) (lastActive u)
    (subscription_type u) (permissions u) (apiUsage u) (createdAt u).

Definition set_lastActive (t : Z) (u : UserDoc) : UserDoc :=
  mkUserDoc (_id u) (firstName u) (lastName u) (email u) (phone u) (password u)
    (role u) (isVerified u) (location u) (newsletter u) (loginAttempts u)
    (lastLoginAttempt u) (lastLogin u) (passwordResetToken u)
    (passwordResetExpires u) (emailVerificationToken u)
    (emailVerificationExpires u) t (subscription_type u) (permissions u)
    (apiUsage u) (createdAt u).

Definition set_apiUsage (a : ApiUsage) (u : UserDoc) : UserDoc :=
  mkUserDoc (_id u) (firstName u) (lastName u) (email u) (phone u) (password u)
    (role u) (isVerified u) (location u) (newsletter u) (loginAttempts u)
    (lastLoginAttempt u) (lastLogin u) (passwordResetToken u)
    (passwordResetExpires u) (emailVerificationToken u)
    (emailVerificationExpires u) (lastActive u) (subscription_type u)
    (permissions u) a (createdAt u).

Definition set_createdAt (t : Z) (u : UserDoc) : UserDoc :=
  mkUserDoc (_id u) (firstName u) (lastName u) (email u) (phone u) (password u)
    (role u) (isVerified u) (location u) (newsletter u) (loginAttempts u)
    (lastLoginAttempt u) (lastLogin u) (passwordResetToken u)
    (passwordResetExpires u) (emailVerificationToken u)
    (emailVerificationExpires u) (lastActive u) (subscription_type u)
    (permissions u) (apiUsage u) (Some t).

(** *** Schema validators (user.js, lines 9-284) *)

Import Regex.

(** [/^\w+([.-]?\w+)*@\w+([.-]?\w+)*(\.\w{2,3})+$/], the [match] of [email]. *)
Definition schema_email_regex : regex :=
  let w := Cls word in
  let dot_or_dash := Cls (fun c => Ascii.eqb c "." || Ascii.eqb c "-") in
  let words := Cat (Plus w) (Star (Cat (Opt dot_or_dash) (Plus w))) in
  let tld := Cat (Chr ".") (Cat w (Cat w (Opt w))) in
  Cat words (Cat (Chr "@") (Cat words (Plus tld))).

(** [/^[\+]?[1-9][\d]{0,15}$/], the [match] of [phone]. *)
Definition schema_phone_regex : regex :=
  Cat (Opt (Chr "+")) (Cat (Cls (in_range 49 57)) (UpTo 15 (Cls digit))).

(** Mongoose's [match] validator passes a value that is absent or empty. *)
Definition match_ok (r : regex) (v : option string) : bool :=
  match v with
  | Some s => if String.eqb s "" then true else test r s
  | None => true
  end.

Definition role_enum : list string :=
  ["individual"; "organization"; "researcher"; "government"; "ngo"; "admin"].

(** The validators run by [save] on the paths of [UserDoc]:
    [required], [maxLength], [minLength], [match] and [enum]. *)
Definition schema_validate (u : UserDoc) : bool :=
  negb (String.eqb (firstName u) "") && (Js.length (firstName u) <=? 50)
  && negb (String.eqb (lastName u) "") && (Js.length (lastName u) <=? 50)
  && negb (String.eqb (email u) "") && match_ok schema_email_regex (Some (email u))
  && match_ok schema_phone_regex (phone u)
  && match password u with
     | Some p => negb (String.eqb p "") && (8 <=? Js.length p)
     | None => false
     end
  && Js.includes role_enum (role u)
  && match location u with
     | Some l => Js.length l <=? 100
     | None => true
     end.

(** *** Instance methods (user.js, lines 336-384) *)

Import Js.

Definition set_opt (k : string) (v : option Json) (o : gmap string Json)
  : gmap string Json :=
  match v with
  | Some j => <[k := j]> o
  | None => o
  end.

Definition permission_json (p : Permission) : Json :=
  JObj [("resource", JStr (resource p)); ("actions", JArr (map JStr (actions p)))].

Definition subscription_name (t : SubscriptionType) : string :=
  match t with
  | free => "free" | basic => "basic" | premium => "premium"
  | enterprise => "enterprise"
  end.

Definition opt_field (k : string) (v : option Json) : list (string * Json) :=
  match v with
  | Some j => [(k, j)]
  | None => []
  end.

(** [this.toObject()]: the plain object with the paths that are set. *)
Definition toObject (u : UserDoc) : gmap string Json :=
  set_opt "phone" (JStr <$> phone u)
  (set_opt "password" (JStr <$> password u)
  (set_opt "location" (JStr <$> location u)
  (set_opt "lastLoginAttempt" (JNum <$> lastLoginAttempt u)
  (set_opt "lastLogin" (JNum <$> lastLogin u)
  (set_opt "passwordResetToken" (JStr <$> passwordResetToken u)
  (set_opt "passwordResetExpires" (JNum <$> passwordResetExpires u)
  (set_opt "emailVerificationToken" (JStr <$> emailVerificationToken u)
  (set_opt "emailVerificationExpires" (JNum <$> emailVerificationExpires u)
  (set_opt "createdAt" (JNum <$> createdAt u)
  (<["_id" := JStr (_id u)]>
  (<["firstName" := JStr (firstName u)]>
  (<["lastName" := JStr (lastName u)]>
  (<["email" := JStr (email u)]>
  (<["role" := JStr (role u)]>
  (<["isVerified" := JBool (isVerified u)]>
  (<["preferences" := JObj [("newsletter", JBool (newsletter u))]]>
  (<["loginAttempts" := JNum (loginAttempts u)]>
  (<["activity" := JObj [("lastActive", JNum (lastActive u))]]>
  (<["subscription" := JObj [("type", JStr (subscription_name (subscription_type u)))]]>
  (<["permissions" := JArr (map permission_json (permissions u))]>
  (<["apiUsage" :=
       JObj ([("dailyRequests", JNum (dailyRequests (apiUsage u)));
              ("monthlyRequests", JNum (monthlyRequests (apiUsage u)))]
             ++ opt_field "lastRequestDate" (JNum <$> lastRequestDate (apiUsage u))
             ++ [("quotaExceeded", JBool (quotaExceeded (apiUsage u)))])]>
   ∅))))))))))))))))))))).

(** [userSchema.methods.toJSON] *)
Definition toJSON (this : UserDoc) : gmap string Json :=
  let user := toObject this in
  let user := delete "password" user in
  let user := delete "passwordResetToken" user in
  let user := delete "passwordResetExpires" user in
  let user := delete "emailVerificationToken" user in
  let user := delete "emailVerificationExpires" user in
  user.

(** [userSchema.methods.hasPermission]; [None] is [undefined], the value of
    [permission && ...] when [find] found nothing. *)
Definition hasPermission (this : UserDoc) (res action : string) : option bool :=
  if String.eqb (role this) "admin" then Some true
  else
    let permission :=
      find (fun p => String.eqb (resource p) res) (permissions this) in
    match permission with
    | Some p => Some (includes (actions p) action)
    | None => None
    end.

(** Truthiness of the value [hasPermission] returns. *)
Definition truthy_bool (v : option bool) : bool :=
  match v with
  | Some b => b
  | None => false
  end.

(** A quota: a number or [Infinity]. *)
Inductive Limit : Type := Finite (n : Z) | Infinity.

(** [x > l] *)
Definition exceeds (x : Z) (l : Limit) : bool :=
  match l with
  | Finite n => n <? x
  | Infinity => false
  end.

Record Quota : Type := mkQuota { daily : Limit; monthly : Limit }.

(** [quotaLimits[this.subscription.type]] *)
Definition quotaLimits (t : SubscriptionType) : Quota :=
  match t with
  | free => mkQuota (Finite 100) (Finite 1000)
  | basic => mkQuota (Finite 500) (Finite 10000)
  | premium => mkQuota (Finite 2000) (Finite 50000)
  | enterprise => mkQuota Infinity Infinity
  end.

(** ** The host: clock and third-party libraries

    [jwt_verify] and [jwt_sign] are jsonwebtoken with the configured secret,
    [bcrypt_hash] and [bcrypt_compare] are bcryptjs, [findById], [findOne]
    (by [email]) and [save] are the Mongoose model; [new_id] is the ObjectId
    that [new User] draws and [toDateString] renders a timestamp in the
    host's time zone. *)
Record Env : Type := mkEnv {
  now : Z;
  toDateString : Z -> string;
  new_id : string;
  jwt_verify : string -> Exc Jwt.Payload;
  jwt_sign : Json -> string -> Exc string;
  bcrypt_hash : string -> Z -> Exc string;
  bcrypt_compare : string -> option string -> Exc bool;
  findById : string -> Exc (option UserDoc);
  findOne : string -> Exc (option UserDoc);
  save : UserDoc -> Exc UserDoc
}.

(** [userSchema.methods.updateApiUsage]: the document as mutated, and the
    result of the [this.save()] it returns. *)
Definition updateApiUsage (env : Env) (this : UserDoc) : UserDoc * Exc UserDoc :=
  let today := now env in
  let usage := apiUsage this in
  let isNewDay :=
    match lastRequestDate usage with
    | None => true
    | Some d => negb (String.eqb (toDateString env d) (toDateString env today))
    end in
  let dailyRequests' := if isNewDay then 1 else dailyRequests usage + 1 in
  let monthlyRequests' := monthlyRequests usage + 1 in
  let userQuota := quotaLimits (subscription_type this) in
  let quotaExceeded' :=
    exceeds dailyRequests' (daily userQuota)
    || exceeds monthlyRequests' (monthly userQuota) in
  let this' :=
    set_apiUsage
      (mkApiUsage dailyRequests' monthlyRequests' (Some today) quotaExceeded')
      (set_lastActive today this) in
  (this', save env this').

(** ** backend/middleware/auth.js *)

(** The request properties the middleware reads and writes. *)
Record Request : Type := mkRequest {
  authorization : option string;
  x_auth_token : option string;
  query_token : option string;
  ip : string;
  user : option Jwt.Payload;
  userDoc : option UserDoc
}.

Definition set_user (p : option Jwt.Payload) (d : option UserDoc) (req : Request)
  : Request :=
  mkRequest (authorization req) (x_auth_token req) (query_token req) (ip req) p d.

(** What a middleware or a route does with the response: it calls [next()],
    after setting the given headers, or it sends a status and a JSON body. *)
Inductive Outcome : Type :=
| Next (headers : list (string * Z))
| Send (status : Z) (body : Json).

Definition error_body (error message : string) : Json :=
  JObj [("error", JStr error); ("message", JStr message)].

(** [req.header('Authorization')?.replace('Bearer ', '') ||
     req.header('x-auth-token') || req.query.token] *)
Definition request_token (req : Request) : option string :=
  Js.or (Js.or (Js.replace "Bearer " "" <$> authorization req) (x_auth_token req))
        (query_token req).

(** The [catch] block of [auth]. *)
Definition auth_catch (error : Error) : Outcome :=
  if String.eqb (err_name error) "JsonWebTokenError"
  then Send 401 (error_body "Invalid token" "Token is malformed or invalid")
  else if String.eqb (err_name error) "TokenExpiredError"
  then Send 401 (error_body "Token expired" "Please log in again")
  else Send 500 (error_body "Authentication error" "Unable to authenticate request").

Definition auth (env : Env) (req : Request) : Request * Outcome :=
  match request_token req with
  | None => (req, Send 401 (error_body "Access denied" "No token provided"))
  | Some token =>
      if String.eqb token ""
      then (req, Send 401 (error_body "Access denied" "No token provided"))
      else
        match jwt_verify env token with
        | Throw error => (req, auth_catch error)
        | Ok decoded =>
            match findById env (Jwt.userId decoded) with
            | Throw error => (req, auth_catch error)
            | Ok None => (req, Send 401 (error_body "Invalid token" "User not found"))
            | Ok (Some user) =>
                let user := set_lastActive (now env) user in
                let req := set_user (Some decoded) (Some user) req in
                match save env user with
                | Throw error => (req, auth_catch error)
                | Ok _ => (req, Next [])
                end
            end
        end
  end.

Definition optionalAuth (env : Env) (req : Request) : Request * Outcome :=
  match request_token req with
  | None => (set_user None None req, Next [])
  | Some token =>
      if String.eqb token ""
      then (set_user None None req, Next [])
      else
        match jwt_verify env token with
        | Throw _ => (set_user None None req, Next [])
        | Ok decoded =>
            match findById env (Jwt.userId decoded) with
            | Throw _ => (set_user None None req, Next [])
            | Ok None => (req, Next [])
            | Ok (Some user) =>
                let user := set_lastActive (now env) user in
                match save env user with
                | Throw _ => (set_user None None req, Next [])
                | Ok _ => (set_user (Some decoded) (Some user) req, Next [])
                end
            end
        end
  end.

Definition authorize (roles : list string) (req : Request) : Outcome :=
  match user req with
  | None =>
      Send 401 (error_body "Authentication required"
                           "Please log in to access this resource")
  | Some u =>
      if negb (includes roles (Jwt.role u))
      then Send 403 (error_body "Access forbidden"
                                "Insufficient permissions for this resource")
      else Next []
  end.

Definition requirePermission (res action : string) (req : Request) : Outcome :=
  match userDoc req with
  | None =>
      Send 401 (error_body "Authentication required"
                           "Please log in to access this resource")
  | Some doc =>
      if negb (truthy_bool (hasPermission doc res action))
      then Send 403 (error_body "Permission denied"
                      ("You don't have " ++ action ++ " permission for " ++ res))
      else Next []
  end.

Definition checkApiQuota (env : Env) (req : Request) : Request * Outcome :=
  match userDoc req with
  | None => (req, Next [])
  | Some doc =>
      let (doc, saved) := updateApiUsage env doc in
      let req := set_user (user req) (Some doc) req in
      match saved with
      | Throw _ => (req, Next [])
      | Ok _ =>
          if quotaExceeded (apiUsage doc)
          then (req, Send 429
                  (JObj [("error", JStr "Quota exceeded");
                         ("message", JStr "API usage limit reached. Please upgrade your subscription or try again later.");
                         ("quota",
                          JObj [("daily", JNum (dailyRequests (apiUsage doc)));
                                ("subscription",
                                 JStr (subscription_name (subscription_type doc)))])]))
          else (req, Next [])
      end
  end.


(** One value of the [requestCounts] map of [userRateLimit]. *)
Record Entry : Type := mkEntry { count : Z; resetTime : Z }.

(** [req.user?.userId || req.ip] *)
Definition rate_key (req : Request) : string :=
  match user req with
  | Some u => if String.eqb (Jwt.userId u) "" then ip req else Jwt.userId u
  | None => ip req
  end.

(** [Math.ceil(x / 1000)] for an integer [x]. *)
Definition ceil_div_1000 (x : Z) : Z := - ((- x) / 1000).

Definition window_ms (windowMinutes : Z) : Z := windowMinutes * 60 * 1000.

(** The loop "Clean old entries". *)
Definition clean_old (now : Z) (requestCounts : gmap string Entry)
  : gmap string Entry :=
  filter (fun kd => ¬ (resetTime kd.2 < now)) requestCounts.

(** The middleware returned by [userRateLimit(maxRequests, windowMinutes)],
    run at time [now] on the closure's map; it returns the map afterwards. *)
Definition userRateLimit (maxRequests windowMinutes : Z)
    (requestCounts : gmap string Entry) (now : Z) (req : Request)
  : gmap string Entry * Outcome :=
  let userId := rate_key req in
  let requestCounts := clean_old now requestCounts in
  let fresh := mkEntry 0 (now + window_ms windowMinutes) in
  let '(userRequests, requestCounts) :=
    match requestCounts !! userId with
    | None => (fresh, <[userId := fresh]> requestCounts)
    | Some e =>
        if resetTime e <? now
        then (fresh, <[userId := fresh]> requestCounts)
        else (e, requestCounts)
    end in
  if maxRequests <=? count userRequests
  then (requestCounts,
        Send 429
          (JObj [("error", JStr "Rate limit exceeded");
                 ("message",
                  JStr ("Too many requests. Limit: " ++ pretty maxRequests
                        ++ " per " ++ pretty windowMinutes ++ " minutes"));
                 ("resetTime", JNum (resetTime userRequests))]))
  else
    let userRequests :=
      mkEntry (count userRequests + 1) (resetTime userRequests) in
    (<[userId := userRequests]> requestCounts,
     Next [("X-RateLimit-Limit", maxRequests);
           ("X-RateLimit-Remaining", maxRequests - count userRequests);
           ("X-RateLimit-Reset", ceil_div_1000 (resetTime userRequests))]).

(** ** backend/routes/auth.js

    A route returns what it sends and the document it has saved, if any.
    The fields of [req.body] are strings or absent. *)

Module Signup.
Record Body : Type := mkBody {
  firstName : option string;
  lastName : option string;
  email : option string;
  phone : option string;
  password : option string;
  role : option string;
  location : option string;
  newsletter : option bool
}.
End Signup.

Module Login.
Record Body : Type := mkBody {
  email : option string;
  password : option string;
  rememberMe : bool
}.
End Login.

(** [/^[^\s@]+@[^\s@]+\.[^\s@]+$/] *)
Definition emailRegex : regex :=
  let c := Cls (fun ch => negb (is_space ch || Ascii.eqb ch "@")) in
  Cat (Plus c) (Cat (Chr "@") (Cat (Plus c) (Cat (Chr ".") (Plus c)))).

(** [new User({...})] as the signup route calls it: the given paths and the
    schema defaults of the others. *)
Definition new_User (env : Env) (firstName lastName email : string)
    (phone : option string) (password role : string) (location : option string)
    (newsletter : bool) : UserDoc :=
  mkUserDoc (new_id env) firstName lastName email phone (Some password) role
    false location newsletter 0 None None None None None None (now env) free []
    (mkApiUsage 0 0 None false) None.

Definition token_payload (u : UserDoc) : Json :=
  JObj [("userId", JStr (_id u)); ("email", JStr (email u)); ("role", JStr (role u))].

Definition signup_userResponse (newUser : UserDoc) : list (string * Json) :=
  [("id", JStr (_id newUser));
   ("firstName", JStr (firstName newUser));
   ("lastName", JStr (lastName newUser));
   ("email", JStr (email newUser));
   ("role", JStr (role newUser));
   ("isVerified", JBool (isVerified newUser))]
  ++ opt_field "createdAt" (JNum <$> createdAt newUser).

Definition signup_catch : Outcome * option UserDoc :=
  (Send 500 (error_body "Registration failed"
                        "Unable to create account. Please try again."), None).

(** POST /api/auth/signup *)
Definition signup (env : Env) (body : Signup.Body) : Outcome * option UserDoc :=
  if negb (truthy (Signup.firstName body)) || negb (truthy (Signup.lastName body))
     || negb (truthy (Signup.email body)) || negb (truthy (Signup.password body))
  then (Send 400 (error_body "Missing required fields"
                  "First name, last name, email, and password are required"), None)
  else
    let firstName := default "" (Signup.firstName body) in
    let lastName := default "" (Signup.lastName body) in
    let email := default "" (Signup.email body) in
    let password := default "" (Signup.password body) in
    if negb (test emailRegex email)
    then (Send 400 (error_body "Invalid email format"
                               "Please provide a valid email address"), None)
    else if Js.length password <? 8
    then (Send 400 (error_body "Weak password"
                               "Password must be at least 8 characters long"), None)
    else
      match findOne env (toLowerCase email) with
      | Throw _ => signup_catch
      | Ok (Some existingUser) =>
          (Send 409 (error_body "User already exists"
                                "An account with this email already exists"), None)
      | Ok None =>
          match bcrypt_hash env password 12 with
          | Throw _ => signup_catch
          | Ok hashedPassword =>
              let newUser :=
                new_User env (trim firstName) (trim lastName)
                  (trim (toLowerCase email)) (trim <$> Signup.phone body)
                  hashedPassword
                  (if truthy (Signup.role body)
                   then default "" (Signup.role body) else "individual")
                  (trim <$> Signup.location body)
                  (default false (Signup.newsletter body)) in
              match save env newUser with
              | Throw _ => signup_catch
              | Ok newUser =>
                  match jwt_sign env (token_payload newUser) "7d" with
                  | Throw _ => (signup_catch.1, Some newUser)
                  | Ok token =>
                      (Send 201
                         (JObj [("success", JBool true);
                                ("message", JStr "Account created successfully");
                                ("user", JObj (signup_userResponse newUser));
                                ("token", JStr token)]),
                       Some newUser)
                  end
              end
          end
      end.

Definition login_catch : Outcome :=
  Send 500 (error_body "Login failed" "Unable to process login. Please try again.").

Definition invalid_credentials : Outcome :=
  Send 401 (error_body "Invalid credentials" "Email or password is incorrect").

Definition login_userResponse (u : UserDoc) : list (string * Json) :=
  [("id", JStr (_id u));
   ("firstName", JStr (firstName u));
   ("lastName", JStr (lastName u));
   ("email", JStr (email u));
   ("role", JStr (role u));
   ("isVerified", JBool (isVerified u))]
  ++ opt_field "lastLogin" (JNum <$> lastLogin u).

(** The part of the login route after the lock check: "Verify password" and
    what follows. *)
Definition login_verify (env : Env) (body : Login.Body) (user : UserDoc)
  : Outcome * option UserDoc :=
  match bcrypt_compare env (default "" (Login.password body)) (password user) with
  | Throw _ => (login_catch, None)
  | Ok false =>
      let user := set_loginAttempts (loginAttempts user + 1) user in
      let user := set_lastLoginAttempt (now env) user in
      match save env user with
      | Throw _ => (login_catch, None)
      | Ok user => (invalid_credentials, Some user)
      end
  | Ok true =>
      let user := set_loginAttempts 0 user in
      let user := set_lastLogin (now env) user in
      match save env user with
      | Throw _ => (login_catch, None)
      | Ok user =>
          let tokenExpiry := if Login.rememberMe body then "30d" else "7d" in
          match jwt_sign env (token_payload user) tokenExpiry with
          | Throw _ => (login_catch, Some user)
          | Ok token =>
              (Send 200
                 (JObj [("success", JBool true);
                        ("message", JStr "Login successful");
                        ("user", JObj (login_userResponse user));
                        ("token", JStr token)]),
               Some user)
          end
      end
  end.

(** POST /api/auth/login *)
Definition login (env : Env) (body : Login.Body) : Outcome * option UserDoc :=
  if negb (truthy (Login.email body)) || negb (truthy (Login.password body))
  then (Send 400 (error_body "Missing credentials"
                             "Email and password are required"), None)
  else
    let email := default "" (Login.email body) in
    match findOne env (toLowerCase email) with
    | Throw _ => (login_catch, None)
    | Ok None => (invalid_credentials, None)
    | Ok (Some user) =>
        if 5 <=? loginAttempts user
        then
          match lastLoginAttempt user with
          | None => (login_catch, None)
          | Some attempt =>
              let lockTime := attempt + 30 * 60 * 1000 in
              if now env <? lockTime
              then (Send 423 (error_body "Account locked"
                      "Too many failed login attempts. Please try again later."),
                    None)
              else login_verify env body user
          end
        else login_verify env body user
    end.

Definition reset_message : Json :=
  JObj [("success", JBool true);
        ("message",
         JStr "If an account with this email exists, a password reset link has been sent.")].

Definition forgot_password_catch : Outcome :=
  Send 500 (error_body "Password reset failed"
                       "Unable to process password reset request").

(** POST /api/auth/forgot-password; [res.json] without [res.status] sends 200. *)
Definition forgot_password (env : Env) (email : option string)
  : Outcome * option UserDoc :=
  if negb (truthy email)
  then (Send 400 (error_body "Missing email" "Email is required"), None)
  else
    match findOne env (toLowerCase (default "" email)) with
    | Throw _ => (forgot_password_catch, None)
    | Ok None => (Send 200 reset_message, None)
    | Ok (Some user) =>
        match jwt_sign env
                (JObj [("userId", JStr (_id user));
                       ("purpose", JStr "password-reset")]) "1h" with
        | Throw _ => (forgot_password_catch, None)
        | Ok resetToken =>
            let user := set_passwordReset resetToken (now env + 60 * 60 * 1000) user in
            match save env user with
            | Throw _ => (forgot_password_catch, None)
            | Ok user => (Send 200 reset_message, Some user)
            end
        end
    end.

(** ** backend/server.js: the global error handler

    [development] is [process.env.NODE_ENV === 'development'].  The
    [details] and [stack] properties of the bodies are left out. *)
Definition global_error_handler (development : bool) (error : Error) : Outcome :=
  if String.eqb (err_name error) "MongoNetworkError"
     || String.eqb (err_name error) "MongoTimeoutError"
  then Send 503 (error_body "Database connection error"
                   "Unable to connect to database. Please try again later.")
  else if String.eqb (err_name error) "ValidationError"
  then Send 400 (error_body "Validation error" (err_message error))
  else if String.eqb (err_name error) "JsonWebTokenError"
  then Send 401 (error_body "Authentication error" "Invalid or expired token")
  else if bool_decide (err_code error = Some "LIMIT_FILE_SIZE")
  then Send 413 (error_body "File too large" "File size exceeds 10MB limit")
  else
    let status :=
      match err_status error with
      | Some s => if s =? 0 then 500 else s
      | None => 500
      end in
    Send status
      (error_body "Internal server error"
         (if development then err_message error else "Something went wrong")).

(** ** A host for running the routes: an in-memory [users] collection

    The collection is the list of its documents.  [save] runs the schema
    validators and the unique index on [email], and stamps [createdAt] on a
    new document.  The password hash and the token codec are stand-ins that
    keep the shape of the real ones: a hash is the password behind a prefix,
    a token is the user id behind a prefix.  A lookup returns the stored
    document with every path, as a query with [.select('+password')] and the
    like does, and compares the key as it is given; the hosts further down
    that apply the default projection stand for queries that select
    nothing. *)

Definition find_email (db : list UserDoc) (e : string) : option UserDoc :=
  find (fun u => String.eqb (email u) e) db.

Definition find_id (db : list UserDoc) (id : string) : option UserDoc :=
  find (fun u => String.eqb (_id u) id) db.

Definition validation_error : Error :=
  mkError "ValidationError" None None "User validation failed".

Definition duplicate_key_error : Error :=
  mkError "MongoServerError" (Some "11000") None "E11000 duplicate key error".

Definition mongo_save (db : list UserDoc) (clock : Z) (u : UserDoc) : Exc UserDoc :=
  if negb (schema_validate u) then Throw validation_error
  else
    match find_email db (email u) with
    | Some other =>
        if String.eqb (_id other) (_id u) then Ok u else Throw duplicate_key_error
    | None =>
        Ok (match createdAt u with
            | Some _ => u
            | None => set_createdAt clock u
            end)
    end.

(** The collection after [u] has been written. *)
Fixpoint store (u : UserDoc) (db : list UserDoc) : list UserDoc :=
  match db with
  | [] => [u]
  | v :: db' => if String.eqb (_id v) (_id u) then u :: db' else v :: store u db'
  end.

Definition commit (saved : option UserDoc) (db : list UserDoc) : list UserDoc :=
  match saved with
  | Some u => store u db
  | None => db
  end.

Definition json_field (k : string) (j : Json) : option Json :=
  match j with
  | JObj fields => snd <$> find (fun kv => String.eqb (fst kv) k) fields
  | _ => None
  end.

Definition toy_hash (p : string) : string := "$2a$12$" ++ p.

Definition toy_sign (payload : Json) : Exc string :=
  match json_field "userId" payload with
  | Some (JStr id) => Ok ("jwt." ++ id)
  | _ => Throw (mkError "Error" None None "payload")
  end.

Definition toy_verify (db : list UserDoc) (token : string) : Exc Jwt.Payload :=
  if String.prefix "jwt." token
  then
    let id := String.substring 4 (String.length token - 4) token in
    match find_id db id with
    | Some u => Ok (Jwt.mkPayload id (email u) (role u))
    | None => Ok (Jwt.mkPayload id "" "")
    end
  else Throw (mkError "JsonWebTokenError" None None "jwt malformed").

Definition utc_day (t : Z) : string := pretty (t / 86400000).

Definition mongo (db : list UserDoc) (clock : Z) (fresh_id : string) : Env :=
  mkEnv clock utc_day fresh_id
    (toy_verify db)
    (fun payload _ => toy_sign payload)
    (fun p _ => Ok (toy_hash p))
    (fun p h =>
       match h with
       | Some h => Ok (String.eqb h (toy_hash p))
       | None => Throw (mkError "Error" None None "Illegal arguments")
       end)
    (fun id => Ok (find_id db id))
    (fun e => Ok (find_email db e))
    (mongo_save db clock).

(** One request served on the collection: the response and the collection
    afterwards. *)
Definition serve_signup (db : list UserDoc) (clock : Z) (fresh_id : string)
    (body : Signup.Body) : Outcome * list UserDoc :=
  let (out, saved) := signup (mongo db clock fresh_id) body in
  (out, commit saved db).

Definition serve_login (db : list UserDoc) (clock : Z) (body : Login.Body)
  : Outcome * list UserDoc :=
  let (out, saved) := login (mongo db clock "") body in
  (out, commit saved db).

Definition status_of (o : Outcome) : option Z :=
  match o with
  | Send s _ => Some s
  | Next _ => None
  end.

Definition ada_body : Signup.Body :=
  Signup.mkBody (Some "Ada") (Some "Lovelace") (Some "Ada@Example.com") None
    (Some "correct horse") None None None.


Definition ada : UserDoc :=
  mkUserDoc "u1" "Ada" "Lovelace" "ada@example.com" None
    (Some (toy_hash "correct horse")) "individual" false None false 0 None None
    None None None None 1000 free [] (mkApiUsage 0 0 None false) (Some 1000).

Definition two_grants : UserDoc :=
  mkUserDoc "u2" "Grace" "Hopper" "grace@example.com" None
    (Some (toy_hash "eight chars")) "researcher" true None false 0 None None
    None None None None 1000 free
    [mkPermission "sensors" ["read"]; mkPermission "sensors" ["write"]]
    (mkApiUsage 0 0 None false) (Some 1000).

(** The statuses the specification lists for the global error handler. *)
Definition listed_statuses : list Z := [400; 401; 403; 409; 413; 429; 500].

(** [error.status || 500] *)
Definition status_or_500 (error : Error) : Z :=
  match err_status error with
  | Some s => if s =? 0 then 500 else s
  | None => 500
  end.

Definition network_error : Error :=
  mkError "MongoNetworkError" None None "connection timed out".



Definition bearer (token : string) : Request :=
  mkRequest (Some ("Bearer " ++ token)) None None "10.0.0.1" None None.

(** A host whose database refuses every write. *)
Definition read_only (env : Env) : Env :=
  mkEnv (now env) (toDateString env) (new_id env) (jwt_verify env)
    (jwt_sign env) (bcrypt_hash env) (bcrypt_compare env) (findById env)
    (findOne env) (fun _ => Throw network_error).

(** A free-tier user who has used the 100 requests of the day at noon of
    day 0. *)
Definition heavy_user : UserDoc :=
  set_apiUsage (mkApiUsage 100 100 (Some 43200000) false) ada.

Definition as_user (u : UserDoc) : Request :=
  mkRequest None None None "10.0.0.1"
    (Some (Jwt.mkPayload (_id u) (email u) (role u))) (Some u).

(** "A new calendar day": no earlier request, or one whose date string differs
    from today's. *)
Definition new_calendar_day (env : Env) (u : UserDoc) : Prop :=
  match lastRequestDate (apiUsage u) with
  | None => True
  | Some d => toDateString env d ≠ toDateString env (now env)
  end.

(** The limits of a tier, as the specification lists them; [None] is
    "unlimited". *)
Definition tier_limits (t : SubscriptionType) : option (Z * Z) :=
  match t with
  | free => Some (100, 1000)
  | basic => Some (500, 10000)
  | premium => Some (2000, 50000)
  | enterprise => None
  end.

Definition over_limit (t : SubscriptionType) (dailyCount monthlyCount : Z) : Prop :=
  match tier_limits t with
  | Some (d, m) => d < dailyCount ∨ m < monthlyCount
  | None => False
  end.

(** *** Runs of the rate limiter

    The closure of [userRateLimit] serves a sequence of requests, each at its
    own [Date.now()].  A run records, newest first, when each request came,
    under which key, and whether it was admitted. *)
Record Logged : Type := mkLogged { at_time : Z; key : string; admitted : bool }.

Definition is_next (o : Outcome) : bool :=
  match o with
  | Next _ => true
  | Send _ _ => false
  end.

Definition limiter_step (maxRequests windowMinutes : Z)
    (st : gmap string Entry * list Logged) (arrival : Z * Request)
  : gmap string Entry * list Logged :=
  let (out_counts, out) :=
    userRateLimit maxRequests windowMinutes st.1 arrival.1 arrival.2 in
  (out_counts, mkLogged arrival.1 (rate_key arrival.2) (is_next out) :: st.2).

Definition limiter_run (maxRequests windowMinutes : Z) (trace : list (Z * Request))
  : gmap string Entry * list Logged :=
  fold_left (limiter_step maxRequests windowMinutes) trace (∅, []).

(** The clock never runs backwards along the trace. *)
Fixpoint chronological (last : Z) (trace : list (Z * Request)) : Prop :=
  match trace with
  | [] => True
  | arrival :: rest => last ≤ arrival.1 ∧ chronological arrival.1 rest
  end.

(** The sliding-window reading: the requests of [k] among those logged that
    came within the [windowMinutes] minutes before [t]; all of them, or the
    admitted ones only. *)
Fixpoint prior_in_window (windowMinutes : Z) (log : list Logged) (k : string)
    (t : Z) (admitted_only : bool) : Z :=
  match log with
  | [] => 0
  | l :: older =>
      (if String.eqb (key l) k && (t - window_ms windowMinutes <=? at_time l)
          && (negb admitted_only || admitted l)
       then 1 else 0)
      + prior_in_window windowMinutes older k t admitted_only
  end.

(** The fixed-window reading.  A window of [k] opens at the first request of
    [k], and again at the first request of [k] that comes after the open
    window's reset time; [window_opened] is the opening time of the latest
    window in the log. *)
Fixpoint window_opened (windowMinutes : Z) (log : list Logged) (k : string)
  : option Z :=
  match log with
  | [] => None
  | l :: older =>
      if String.eqb (key l) k
      then match window_opened windowMinutes older k with
           | Some o =>
               if o + window_ms windowMinutes <? at_time l
               then Some (at_time l) else Some o
           | None => Some (at_time l)
           end
      else window_opened windowMinutes older k
  end.

(** The opening time of the window that a request of [k] at [t] falls in. *)
Definition current_window (windowMinutes : Z) (log : list Logged) (k : string)
    (t : Z) : Z :=
  match window_opened windowMinutes log k with
  | Some o => if o + window_ms windowMinutes <? t then t else o
  | None => t
  end.

(** The requests of [k] admitted since time [o]. *)
Fixpoint admitted_since (log : list Logged) (k : string) (o : Z) : Z :=
  match log with
  | [] => 0
  | l :: older =>
      (if String.eqb (key l) k && admitted l && (o <=? at_time l) then 1 else 0)
      + admitted_since older k o
  end.

(** The entry a request at [t] works on: the live one, or a fresh one. *)
Definition entry_in_use (windowMinutes t : Z) (m : gmap string Entry) (k : string)
  : Entry :=
  match m !! k with
  | Some e => if resetTime e <? t then mkEntry 0 (t + window_ms windowMinutes) else e
  | None => mkEntry 0 (t + window_ms windowMinutes)
  end.

(** What ties the map of the closure to the log of a run at time [tl]. *)
Definition limiter_inv (windowMinutes tl : Z) (st : gmap string Entry * list Logged)
  : Prop :=
  (∀ l, In l st.2 → at_time l ≤ tl)
  ∧ (∀ k e, st.1 !! k = Some e →
       ∃ o, window_opened windowMinutes st.2 k = Some o
            ∧ resetTime e = o + window_ms windowMinutes
            ∧ count e = admitted_since st.2 k o)
  ∧ (∀ k o, st.1 !! k = None → window_opened windowMinutes st.2 k = Some o →
       o + window_ms windowMinutes < tl)
  ∧ (∀ k o l, window_opened windowMinutes st.2 k = Some o → In l st.2 →
       key l = k → at_time l ≤ o + window_ms windowMinutes).

Definition from_ip (addr : string) : Request :=
  mkRequest None None None addr None None.

(** Three requests from one address, at 0 s, 59 s and 60.001 s. *)
Definition burst : list (Z * Request) :=
  [(0, from_ip "10.0.0.1"); (59000, from_ip "10.0.0.1");
   (60001, from_ip "10.0.0.1")].

(** The checks of the signup route that answer 400. *)
Definition signup_valid (body : Signup.Body) : bool :=
  truthy (Signup.firstName body) && truthy (Signup.lastName body)
  && truthy (Signup.email body) && truthy (Signup.password body)
  && test emailRegex (default "" (Signup.email body))
  && (8 <=? Js.length (default "" (Signup.password body))).

(** The document the signup route hands to [save]. *)
Definition signup_document (env : Env) (body : Signup.Body) (hashedPassword : string)
  : UserDoc :=
  new_User env
    (trim (default "" (Signup.firstName body)))
    (trim (default "" (Signup.lastName body)))
    (trim (toLowerCase (default "" (Signup.email body))))
    (trim <$> Signup.phone body)
    hashedPassword
    (if truthy (Signup.role body) then default "" (Signup.role body)
     else "individual")
    (trim <$> Signup.location body)
    (default false (Signup.newsletter body)).

Definition created_body (newUser : UserDoc) (token : string) : Json :=
  JObj [("success", JBool true);
        ("message", JStr "Account created successfully");
        ("user", JObj (signup_userResponse newUser));
        ("token", JStr token)].

(** A complete signup body that asks for a role outside the schema's enum. *)
Definition superuser_body : Signup.Body :=
  Signup.mkBody (Some "Eve") (Some "Moneypenny") (Some "eve@example.com") None
    (Some "12345678") (Some "superuser") None None.

(** A complete signup body with an address in a four-letter domain. *)
Definition info_body : Signup.Body :=
  Signup.mkBody (Some "Ida") (Some "Rhodes") (Some "ida@library.info") None
    (Some "12345678") None None None.

(** [ada] after five failed logins, the last one at 2000 ms. *)
Definition locked_ada : UserDoc :=
  set_lastLoginAttempt 2000 (set_loginAttempts 5 ada).

Definition ada_login (password : string) : Login.Body :=
  Login.mkBody (Some "ada@example.com") (Some password) false.

Definition locked_body : Json :=
  error_body "Account locked"
             "Too many failed login attempts. Please try again later.".

(** The document a successful login hands to [save]. *)
Definition login_success_document (env : Env) (user : UserDoc) : UserDoc :=
  set_lastLogin (now env) (set_loginAttempts 0 user).

(** The document a failed login hands to [save]. *)
Definition login_failure_document (env : Env) (user : UserDoc) : UserDoc :=
  set_lastLoginAttempt (now env) (set_loginAttempts (loginAttempts user + 1) user).

(** Every character of [s] is in the class [p]. *)
Fixpoint all_chars (p : ascii -> bool) (s : string) : bool :=
  match s with
  | EmptyString => true
  | String c s' => p c && all_chars p s'
  end.

(** A character that is neither white space nor [@]. *)
Definition plain_char (c : ascii) : bool := negb (is_space c || Ascii.eqb c "@").

(** ** backend/routes/auth.js: the other routes *)

(** POST /api/auth/check-email *)
Definition check_email (env : Env) (email : option string) : Outcome :=
  if negb (truthy email)
  then Send 400 (error_body "Missing email" "Email is required")
  else
    match findOne env (toLowerCase (default "" email)) with
    | Throw _ =>
        Send 500 (error_body "Email check failed"
                             "Unable to verify email availability")
    | Ok existingUser =>
        Send 200
          (JObj [("available",
                  JBool (match existingUser with Some _ => false | None => true end));
                 ("email", JStr (toLowerCase (default "" email)))])
    end.

Module ResetPassword.
Record Body : Type := mkBody {
  token : option string;
  newPassword : option string
}.
End ResetPassword.

Definition set_password (p : string) (u : UserDoc) : UserDoc :=
  mkUserDoc (_id u) (firstName u) (lastName u) (email u) (phone u) (Some p)
    (role u) (isVerified u) (location u) (newsletter u) (loginAttempts u)
    (lastLoginAttempt u) (lastLogin u) (passwordResetToken u)
    (passwordResetExpires u) (emailVerificationToken u)
    (emailVerificationExpires u) (lastActive u) (subscription_type u)
    (permissions u) (apiUsage u) (createdAt u).

(** [user.passwordResetToken = undefined; user.passwordResetExpires = undefined] *)
Definition clear_passwordReset (u : UserDoc) : UserDoc :=
  mkUserDoc (_id u) (firstName u) (lastName u) (email u) (phone u) (password u)
    (role u) (isVerified u) (location u) (newsletter u) (loginAttempts u)
    (lastLoginAttempt u) (lastLogin u) None None
    (emailVerificationToken u) (emailVerificationExpires u) (lastActive u)
    (subscription_type u) (permissions u) (apiUsage u) (createdAt u).

Definition invalid_reset_token : Outcome :=
  Send 401 (error_body "Invalid token" "Password reset token is invalid or expired").

Definition reset_password_catch : Outcome :=
  Send 500 (error_body "Password reset failed"
                       "Unable to reset password. Please try again.").

(** [new Date() > user.passwordResetExpires]; a comparison with [undefined]
    is false. *)
Definition reset_expired (env : Env) (user : UserDoc) : bool :=
  match passwordResetExpires user with
  | Some expires => expires <? now env
  | None => false
  end.

(** The document the reset-password route hands to [save]. *)
Definition reset_document (hashedPassword : string) (user : UserDoc) : UserDoc :=
  set_loginAttempts 0 (clear_passwordReset (set_password hashedPassword user)).

(** POST /api/auth/reset-password *)
Definition reset_password (env : Env) (body : ResetPassword.Body)
  : Outcome * option UserDoc :=
  if negb (truthy (ResetPassword.token body))
     || negb (truthy (ResetPassword.newPassword body))
  then (Send 400 (error_body "Missing required fields"
                  "Reset token and new password are required"), None)
  else
    let token := default "" (ResetPassword.token body) in
    let newPassword := default "" (ResetPassword.newPassword body) in
    if Js.length newPassword <? 8
    then (Send 400 (error_body "Weak password"
                               "Password must be at least 8 characters long"), None)
    else
      match jwt_verify env token with
      | Throw jwtError => (invalid_reset_token, None)
      | Ok decoded =>
          match findById env (Jwt.userId decoded) with
          | Throw _ => (reset_password_catch, None)
          | Ok None => (invalid_reset_token, None)
          | Ok (Some user) =>
              if negb (bool_decide (passwordResetToken user = Some token))
              then (invalid_reset_token, None)
              else if reset_expired env user
              then (Send 401 (error_body "Token expired"
                                         "Password reset token has expired"), None)
              else
                match bcrypt_hash env newPassword 12 with
                | Throw _ => (reset_password_catch, None)
                | Ok hashedPassword =>
                    match save env (reset_document hashedPassword user) with
                    | Throw _ => (reset_password_catch, None)
                    | Ok user =>
                        (Send 200
                           (JObj [("success", JBool true);
                                  ("message",
                                   JStr "Password has been reset successfully")]),
                         Some user)
                    end
                end
          end
      end.

Module ChangePassword.
Record Body : Type := mkBody {
  currentPassword : option string;
  newPassword : option string
}.
End ChangePassword.

Definition change_password_catch : Outcome :=
  Send 500 (error_body "Password change failed"
                       "Unable to change password. Please try again.").

(** The handler of POST /api/auth/change-password, behind [auth].  Reading
    [req.user.userId] when [req.user] is not set throws. *)
Definition change_password (env : Env) (body : ChangePassword.Body) (req : Request)
  : Outcome * option UserDoc :=
  if negb (truthy (ChangePassword.currentPassword body))
     || negb (truthy (ChangePassword.newPassword body))
  then (Send 400 (error_body "Missing passwords"
                             "Current and new passwords are required"), None)
  else
    let currentPassword := default "" (ChangePassword.currentPassword body) in
    let newPassword := default "" (ChangePassword.newPassword body) in
    if Js.length newPassword <? 8
    then (Send 400 (error_body "Weak password"
                    "New password must be at least 8 characters long"), None)
    else
      match user req with
      | None => (change_password_catch, None)
      | Some payload =>
          match findById env (Jwt.userId payload) with
          | Throw _ => (change_password_catch, None)
          | Ok None => (Send 404 (error_body "User not found" "User not found"), None)
          | Ok (Some user) =>
              match bcrypt_compare env currentPassword (password user) with
              | Throw _ => (change_password_catch, None)
              | Ok false =>
                  (Send 401 (error_body "Invalid password"
                                        "Current password is incorrect"), None)
              | Ok true =>
                  match bcrypt_hash env newPassword 12 with
                  | Throw _ => (change_password_catch, None)
                  | Ok hashedNewPassword =>
                      match save env (set_password hashedNewPassword user) with
                      | Throw _ => (change_password_catch, None)
                      | Ok user =>
                          (Send 200
                             (JObj [("success", JBool true);
                                    ("message",
                                     JStr "Password changed successfully")]),
                           Some user)
                      end
                  end
              end
          end
      end.

Module DeleteAccount.
Record Body : Type := mkBody {
  password : option string;
  confirmation : option string
}.
End DeleteAccount.

Definition delete_account_catch : Outcome :=
  Send 500 (error_body "Account deletion failed"
                       "Unable to delete account. Please try again.").

(** The handler of DELETE /api/auth/account, behind [auth].
    [findByIdAndDelete] is the Mongoose model's; the result carries the id
    that was deleted, if any. *)
Definition delete_account (env : Env) (findByIdAndDelete : string -> Exc unit)
    (body : DeleteAccount.Body) (req : Request) : Outcome * option string :=
  if negb (truthy (DeleteAccount.password body))
     || negb (bool_decide (DeleteAccount.confirmation body = Some "DELETE_MY_ACCOUNT"))
  then (Send 400 (error_body "Invalid confirmation"
                             "Password and confirmation text required"), None)
  else
    match user req with
    | None => (delete_account_catch, None)
    | Some payload =>
        match findById env (Jwt.userId payload) with
        | Throw _ => (delete_account_catch, None)
        | Ok None => (Send 404 (error_body "User not found" "User not found"), None)
        | Ok (Some user) =>
            match bcrypt_compare env (default "" (DeleteAccount.password body))
                    (password user) with
            | Throw _ => (delete_account_catch, None)
            | Ok false =>
                (Send 401 (error_body "Invalid password" "Password is incorrect"), None)
            | Ok true =>
                match findByIdAndDelete (Jwt.userId payload) with
                | Throw _ => (delete_account_catch, None)
                | Ok _ =>
                    (Send 200
                       (JObj [("success", JBool true);
                              ("message", JStr "Account deleted successfully")]),
                     Some (Jwt.userId payload))
                end
            end
        end
    end.

(** [router.<method>(path, auth, handler)]: the handler runs on the request
    as [auth] leaves it, and only when [auth] calls [next()].  [env] is the
    host of [auth]; the handler comes with its own, which is the database
    after the write of [auth] where a property depends on it. *)
Definition behind_auth {A : Type} (env : Env)
    (handler : Request -> Outcome * option A) (req : Request)
  : Outcome * option A :=
  let (req, out) := auth env req in
  match out with
  | Next _ => handler req
  | Send _ _ => (out, None)
  end.

(** [userSchema.methods.resetMonthlyUsage]: the document as mutated, and the
    result of the [this.save()] it returns. *)
Definition resetMonthlyUsage (env : Env) (this : UserDoc) : UserDoc * Exc UserDoc :=
  let usage := apiUsage this in
  let this' :=
    set_apiUsage
      (mkApiUsage (dailyRequests usage) 0 (lastRequestDate usage) false) this in
  (this', save env this').

(** *** Hosts and requests for the examples below *)

(** A host on which the token [stale] still decodes to the role [admin]
    although the stored user has another role. *)
Definition stale_admin (env : Env) (stale : string) : Env :=
  mkEnv (now env) (toDateString env) (new_id env)
    (fun token =>
       if String.eqb token stale
       then Ok (Jwt.mkPayload "u1" "ada@example.com" "admin")
       else jwt_verify env token)
    (jwt_sign env) (bcrypt_hash env) (bcrypt_compare env) (findById env)
    (findOne env) (save env).

(** The bound that every window keeps: no more admitted requests than
    [maxRequests]. *)
Definition windows_bounded (maxRequests W : Z) (log : list Logged) : Prop :=
  ∀ k o, window_opened W log k = Some o →
         admitted_since log k o ≤ Z.max 0 maxRequests.

(** A host whose [save] stores the document it is given. *)
Definition persists (env : Env) : Prop := ∀ d, save env d = Ok d.

(** A host that differs from [env] only in the clock. *)
Definition at_time_of (clock : Z) (env : Env) : Env :=
  mkEnv clock (toDateString env) (new_id env) (jwt_verify env) (jwt_sign env)
    (bcrypt_hash env) (bcrypt_compare env) (findById env) (findOne env)
    (save env).

(** An in-memory host that stores whatever it is given. *)
Definition lenient (clock : Z) : Env :=
  mkEnv clock utc_day "" (toy_verify []) (fun payload _ => toy_sign payload)
    (fun p _ => Ok (toy_hash p))
    (fun p h =>
       match h with
       | Some h => Ok (String.eqb h (toy_hash p))
       | None => Throw (mkError "Error" None None "Illegal arguments")
       end)
    (fun _ => Ok None) (fun _ => Ok None) (fun d => Ok d).

(** A free-tier user at the monthly limit, last seen on day 0. *)
Definition spent_user : UserDoc :=
  set_apiUsage (mkApiUsage 3 1000 (Some 43200000) true) ada.

(** Every character class of [r] lies within [q]. *)
Fixpoint classes_in (q : ascii -> bool) (r : regex) : Prop :=
  match r with
  | Void | Eps => True
  | Cls p => ∀ c, p c = true → q c = true
  | Cat r1 r2 | Alt r1 r2 => classes_in q r1 ∧ classes_in q r2
  | Star r1 => classes_in q r1
  end.

(** The characters of the schema's email pattern apart from [@]. *)
Definition address_char (c : ascii) : bool :=
  word c || Ascii.eqb c "." || Ascii.eqb c "-".

(** The paths the schema marks [select: false], left out as a query does
    that selects nothing explicitly. *)
Definition default_projection (u : UserDoc) : UserDoc :=
  mkUserDoc (_id u) (firstName u) (lastName u) (email u) (phone u) None
    (role u) (isVerified u) (location u) (newsletter u) (loginAttempts u)
    (lastLoginAttempt u) (lastLogin u) None None None None (lastActive u)
    (subscription_type u) (permissions u) (apiUsage u) (createdAt u).

(** The in-memory host with [findById] applying the default projection. *)
Definition projecting (db : list UserDoc) (clock : Z) : Env :=
  mkEnv clock utc_day "" (toy_verify db) (fun payload _ => toy_sign payload)
    (fun p _ => Ok (toy_hash p))
    (bcrypt_compare (mongo db clock ""))
    (fun id => Ok (default_projection <$> find_id db id))
    (fun e => Ok (find_email db e))
    (mongo_save db clock).

(** [ada] with a reset token issued at 1000 ms, good for one hour. *)
Definition ada_resetting : UserDoc :=
  set_passwordReset "jwt.u1" 3601000 ada.

Definition ada_reset_body : ResetPassword.Body :=
  ResetPassword.mkBody (Some "jwt.u1") (Some "new password").

(** The Mongoose model's [findByIdAndDelete] on a collection that holds
    the id. *)
Definition delete_ok (id : string) : Exc unit := Ok tt.

(** The virtual [accountAge]: whole days since [createdAt], 0 without it. *)
Definition accountAge (env : Env) (this : UserDoc) : Z :=
  match createdAt this with
  | None => 0
  | Some created => (now env - created) / (1000 * 60 * 60 * 24)
  end.



(** The in-memory host as a query that selects nothing sees it: [findById]
    leaves out the [select: false] paths, and [save] stores the document it
    is given. *)
Definition plain_query (db : list UserDoc) (clock : Z) : Env :=
  mkEnv clock utc_day "" (toy_verify db) (fun payload _ => toy_sign payload)
    (fun p _ => Ok (toy_hash p))
    (bcrypt_compare (mongo db clock ""))
    (fun id => Ok (default_projection <$> find_id db id))
    (fun e => Ok (find_email db e))
    (fun d => Ok d).

Definition password_changed : Json :=
  JObj [("success", JBool true); ("message", JStr "Password changed successfully")].

Definition change_to_staple : ChangePassword.Body :=
  ChangePassword.mkBody (Some "correct horse") (Some "battery staple").

(** * Properties *)

(** ** Regular expressions: [test] decides [matches] *)

Lemma append_empty (s1 s2 : string) : (s1 ++ s2)%string = "" → s1 = "" ∧ s2 = "".
Proof. destruct s1; simpl; [auto | discriminate]. Qed.

Lemma append_cons (s1 s2 : string) (c : ascii) (s : string) :
  (s1 ++ s2)%string = String c s →
  (s1 = "" ∧ s2 = String c s) ∨ ∃ s1', s1 = String c s1' ∧ s = (s1' ++ s2)%string.
Proof.
  destruct s1 as [|c' s1']; simpl; [auto|].
  intros [= -> <-]. right. eauto.
Qed.

(** Invert the hypothesis [H : matches r s] and split any equation between
    a concatenation and an empty or non-empty string that comes out. *)
Ltac invert_matches H :=
  inversion H; subst; clear H;
  repeat match goal with
    | E : (_ ++ _)%string = "" |- _ => apply append_empty in E as [-> ->]
    | E : (_ ++ _)%string = String _ _ |- _ =>
        apply append_cons in E as [[-> ->] | (? & -> & ->)]
    end.

Lemma nullable_matches (r : regex) : nullable r = true ↔ matches r "".
Proof.
  induction r as [| |p|r1 IH1 r2 IH2|r1 IH1 r2 IH2|r IH]; simpl.
  - split; [discriminate | inversion 1].
  - split; [constructor | done].
  - split; [discriminate | inversion 1].
  - rewrite andb_true_iff, IH1, IH2. split.
    + intros [H1 H2]. apply (MCat r1 r2 "" "" H1 H2).
    + intros H. invert_matches H. auto.
  - rewrite orb_true_iff, IH1, IH2. split.
    + intros [H|H]; [by apply MAltL | by apply MAltR].
    + intros H. invert_matches H; auto.
  - split; [constructor | done].
Qed.

Lemma star_matches_cons (r : regex) (c : ascii) (s : string) :
  matches (Star r) (String c s) →
  ∃ s1 s2, s = (s1 ++ s2)%string ∧ matches r (String c s1) ∧ matches (Star r) s2.
Proof.
  intros H. remember (Star r) as r' eqn:Hr. remember (String c s) as x eqn:Hx.
  revert s Hx. induction H as [| | | | | |r0 s1 s2 H1 _ H2 IH2]; try discriminate.
  injection Hr as ->. intros s Hx.
  apply append_cons in Hx as [[-> ->] | (s1' & -> & ->)].
  - by apply IH2.
  - eauto.
Qed.

Lemma deriv_matches (c : ascii) (r : regex) (s : string) :
  matches (deriv c r) s ↔ matches r (String c s).
Proof.
  revert s. induction r as [| |p|r1 IH1 r2 IH2|r1 IH1 r2 IH2|r IH]; simpl; intros s.
  - split; inversion 1.
  - split; inversion 1.
  - destruct (p c) eqn:Hp; split; intros H; invert_matches H;
      try congruence; by constructor.
  - assert (matches (Cat (deriv c r1) r2) s → matches (Cat r1 r2) (String c s)) as Hfwd.
    { intros H. invert_matches H.
      match goal with
      | H1 : matches (deriv c r1) ?s1, H2 : matches r2 ?s2 |- _ =>
          apply IH1 in H1; apply (MCat r1 r2 (String c s1) s2 H1 H2)
      end. }
    destruct (nullable r1) eqn:Hn; split; intros H.
    + invert_matches H; [auto|].
      apply nullable_matches in Hn. apply (MCat r1 r2 "" (String c s) Hn). by apply IH2.
    + invert_matches H.
      * apply MAltR. by apply IH2.
      * apply MAltL. constructor; [by apply IH1 | done].
    + auto.
    + invert_matches H.
      * match goal with H1 : matches r1 "" |- _ => apply nullable_matches in H1 end.
        congruence.
      * constructor; [by apply IH1 | done].
  - split; intros H; invert_matches H;
      first [apply MAltL; by apply IH1 | apply MAltR; by apply IH2].
  - split; intros H.
    + invert_matches H.
      match goal with
      | H1 : matches (deriv c r) ?s1, H2 : matches (Star r) ?s2 |- _ =>
          apply IH in H1; apply (MStarS r (String c s1) s2 H1 H2)
      end.
    + apply star_matches_cons in H as (s1 & s2 & -> & H1 & H2).
      constructor; [by apply IH | done].
Qed.

Lemma test_matches (r : regex) (s : string) : test r s = true ↔ matches r s.
Proof.
  revert r. induction s as [|c s IH]; simpl; intros r.
  - apply nullable_matches.
  - rewrite IH. apply deriv_matches.
Qed.

Lemma star_class_matches (p : ascii → bool) (s : string) :
  matches (Star (Cls p)) s ↔ all_chars p s = true.
Proof.
  split.
  - intros H. remember (Star (Cls p)) as r eqn:Hr.
    induction H as [| | | | | |r0 s1 s2 H1 _ H2 IH2]; try discriminate; [done|].
    injection Hr as ->. invert_matches H1. simpl.
    match goal with Hp : p _ = true |- _ => rewrite Hp end. by apply IH2.
  - induction s as [|c s IH]; simpl; [constructor|].
    intros [Hc Hs]%andb_true_iff.
    apply (MStarS (Cls p) (String c "") s); [by constructor | auto].
Qed.

Lemma plus_class_matches (p : ascii → bool) (s : string) :
  matches (Plus (Cls p)) s ↔ s ≠ "" ∧ all_chars p s = true.
Proof.
  unfold Plus. split.
  - intros H. invert_matches H.
    match goal with
    | H1 : matches (Cls p) _, H2 : matches (Star _) _ |- _ =>
        invert_matches H1; apply star_class_matches in H2
    end.
    simpl. split; [discriminate|]. by apply andb_true_iff.
  - intros [Hne Hall]. destruct s as [|c s]; [done|]. simpl in Hall.
    apply andb_true_iff in Hall as [Hc Hs].
    apply (MCat (Cls p) (Star (Cls p)) (String c "") s); [by constructor|].
    by apply star_class_matches.
Qed.

(** The format check of the signup route: a local part, [@], a domain, a
    dot and a last label, none empty and none with white space or [@]. *)
Lemma emailRegex_shape (s : string) :
  test emailRegex s = true ↔
  ∃ local domain label,
    s = (local ++ "@" ++ domain ++ "." ++ label)%string
    ∧ local ≠ "" ∧ domain ≠ "" ∧ label ≠ ""
    ∧ all_chars plain_char local = true
    ∧ all_chars plain_char domain = true
    ∧ all_chars plain_char label = true.
Proof.
  rewrite test_matches. unfold emailRegex. fold plain_char. split.
  - intros H. invert_matches H.
    repeat match goal with
      | H : matches (Cat _ _) _ |- _ => invert_matches H
      | H : matches (Chr _) _ |- _ => unfold Chr in H; invert_matches H
      | H : matches (Plus _) _ |- _ => apply plus_class_matches in H as [? ?]
      | H : Ascii.eqb _ _ = true |- _ => apply Ascii.eqb_eq in H; subst
      end.
    eexists _, _, _. split; [reflexivity|]. auto 10.
  - intros (a & b & c & -> & Ha & Hb & Hc & Ha' & Hb' & Hc').
    constructor; [by apply plus_class_matches|].
    apply (MCat (Chr "@") _ "@"); [constructor; reflexivity|].
    constructor; [by apply plus_class_matches|].
    apply (MCat (Chr ".") _ "."); [constructor; reflexivity|].
    by apply plus_class_matches.
Qed.

(** ** user.js: [toJSON] *)

Lemma toJSON_other_fields (this : UserDoc) (k : string) :
  k ≠ "password" → k ≠ "passwordResetToken" → k ≠ "passwordResetExpires" →
  k ≠ "emailVerificationToken" → k ≠ "emailVerificationExpires" →
  toJSON this !! k = toObject this !! k.
Proof.
  intros. unfold toJSON. generalize (toObject this). intros o.
  by rewrite !lookup_delete_ne.
Qed.

Example toObject_has_password : toObject ada !! "password" = Some (JStr "$2a$12$correct horse").
Proof. vm_compute. reflexivity. Qed.

(** C10.  Whatever a user document holds, the object [toJSON] returns has
    none of the properties [password], [passwordResetToken],
    [passwordResetExpires], [emailVerificationToken] and
    [emailVerificationExpires]. *)
Theorem toJSON_removes_sensitive_fields (this : UserDoc) :
  toJSON this !! "password" = None
  ∧ toJSON this !! "passwordResetToken" = None
  ∧ toJSON this !! "passwordResetExpires" = None
  ∧ toJSON this !! "emailVerificationToken" = None
  ∧ toJSON this !! "emailVerificationExpires" = None.
Proof.
  unfold toJSON. generalize (toObject this). intros o.
  repeat split;
    repeat first [ rewrite lookup_delete_eq; reflexivity
                 | rewrite lookup_delete_ne by discriminate ].
Qed.

(** ** user.js: [hasPermission] *)

Lemma find_first_match {A} (f : A → bool) (l : list A) (x : A) :
  find f l = Some x ↔
  ∃ l1 l2 : list A, l = (l1 ++ x :: l2)%list ∧ f x = true ∧ ∀ y, In y l1 → f y = false.
Proof.
  induction l as [|a l IH]; simpl.
  - split; [discriminate|]. intros (l1 & l2 & H & _). by destruct l1.
  - destruct (f a) eqn:Ha.
    + split.
      * intros [= ->]. exists [], l. simpl. tauto.
      * intros (l1 & l2 & H & Hx & Hl1). destruct l1 as [|b l1]; simpl in H.
        -- congruence.
        -- injection H as -> _. specialize (Hl1 b (or_introl eq_refl)). congruence.
    + rewrite IH. split.
      * intros (l1 & l2 & -> & Hx & Hl1). exists (a :: l1), l2. simpl.
        split; [done|]. split; [done|]. intros y [<-|Hy]; auto.
      * intros (l1 & l2 & H & Hx & Hl1). destruct l1 as [|b l1]; simpl in H.
        -- injection H as -> _. congruence.
        -- injection H as -> ->. exists l1, l2. split; [done|]. split; [done|].
           intros y Hy. apply Hl1. by right.
Qed.

Lemma includes_In (arr : list string) (x : string) :
  includes arr x = true ↔ In x arr.
Proof.
  unfold includes. rewrite existsb_exists. split.
  - intros (y & Hy & Heq). apply String.eqb_eq in Heq. by subst.
  - intros H. exists x. split; [done|]. apply String.eqb_refl.
Qed.

(** C8, as stated, fails: a second entry for the same resource is never
    consulted.  [two_grants] holds [sensors:read] and then [sensors:write];
    an entry granting [write] on [sensors] exists, yet the result is falsy. *)
Lemma hasPermission_ignores_later_entries :
  role two_grants ≠ "admin"
  ∧ (∃ p, In p (permissions two_grants)
          ∧ resource p = "sensors" ∧ In "write" (actions p))
  ∧ truthy_bool (hasPermission two_grants "sensors" "write") = false.
Proof.
  split; [discriminate|]. split; [|reflexivity].
  exists (mkPermission "sensors" ["write"]). simpl. tauto.
Qed.

(** C8, amended.  For role [admin] the result is [true] for every resource
    and action.  For every other role the result is truthy exactly when the
    FIRST entry of [permissions] whose resource equals the given resource has
    the given action among its actions. *)
Theorem hasPermission_first_entry (this : UserDoc) (res action : string) :
  (role this = "admin" → hasPermission this res action = Some true)
  ∧ (role this ≠ "admin" →
     (truthy_bool (hasPermission this res action) = true ↔
      ∃ before p after,
        permissions this = (before ++ p :: after)%list
        ∧ (∀ q, In q before → resource q ≠ res)
        ∧ resource p = res
        ∧ In action (actions p))).
Proof.
  unfold hasPermission. split.
  - intros ->. reflexivity.
  - intros Hrole. apply String.eqb_neq in Hrole. rewrite Hrole.
    destruct (find _ (permissions this)) as [p|] eqn:Hfind; simpl.
    + rewrite includes_In. apply find_first_match in Hfind as (l1 & l2 & Hl & Hp & Hl1).
      apply String.eqb_eq in Hp. split.
      * intros Hin. exists l1, p, l2. repeat split; try done.
        intros q Hq. apply String.eqb_neq. auto.
      * intros (b & p' & a & Hl' & Hb & Hp' & Hact).
        assert (find (λ p0, String.eqb (resource p0) res) (permissions this) = Some p') as Hf.
        { apply find_first_match. exists b, a. split; [done|].
          split; [by apply String.eqb_eq|]. intros y Hy. apply String.eqb_neq. auto. }
        assert (find (λ p0, String.eqb (resource p0) res) (permissions this) = Some p) as Hf'.
        { apply find_first_match. exists l1, l2. split; [done|].
          split; [by apply String.eqb_eq|]. done. }
        congruence.
    + split; [discriminate|]. intros (b & p' & a & Hl' & Hb & Hp' & Hact).
      assert (find (λ p0, String.eqb (resource p0) res) (permissions this) = Some p') as Hf.
      { apply find_first_match. exists b, a. split; [done|].
        split; [by apply String.eqb_eq|]. intros y Hy. apply String.eqb_neq. auto. }
      congruence.
Qed.

Lemma hasPermission_first_entry_witness :
  role two_grants ≠ "admin"
  ∧ truthy_bool (hasPermission two_grants "sensors" "read") = true
  ∧ ∃ before p after,
      permissions two_grants = (before ++ p :: after)%list
      ∧ (∀ q, In q before → resource q ≠ "sensors")
      ∧ resource p = "sensors"
      ∧ In "read" (actions p).
Proof.
  assert (role two_grants ≠ "admin") as Hrole by discriminate.
  split; [exact Hrole|]. split; [reflexivity|].
  apply (proj2 (hasPermission_first_entry two_grants "sensors" "read") Hrole).
  reflexivity.
Defined.

(** ** server.js: the global error handler *)

(** C3, as stated, fails: a database connection error is answered with 503,
    which is none of 400, 401, 403, 409, 413, 429 and 500. *)
Lemma global_error_handler_sends_503 :
  status_of (global_error_handler false network_error) = Some 503
  ∧ ¬ In 503 listed_statuses.
Proof.
  split; [reflexivity|]. unfold listed_statuses. simpl. lia.
Qed.

Example global_error_handler_own_status :
  status_of (global_error_handler false (mkError "NotFoundError" None (Some 404) "")) = Some 404.
Proof. reflexivity. Qed.

(** C3, amended.  The global error handler switches on the error's name and
    code: [MongoNetworkError] and [MongoTimeoutError] give 503,
    [ValidationError] gives 400, [JsonWebTokenError] gives 401, the code
    [LIMIT_FILE_SIZE] gives 413, in this order; every other error gives its
    own [status] property, or 500 when that is missing or zero. *)
Theorem global_error_handler_status (development : bool) (error : Error) :
  ∃ s body,
    global_error_handler development error = Send s body
    ∧ ((err_name error = "MongoNetworkError" ∨ err_name error = "MongoTimeoutError")
         ∧ s = 503
       ∨ ¬ (err_name error = "MongoNetworkError" ∨ err_name error = "MongoTimeoutError")
         ∧ (err_name error = "ValidationError" ∧ s = 400
            ∨ err_name error = "JsonWebTokenError" ∧ s = 401
            ∨ err_name error ≠ "ValidationError"
              ∧ err_name error ≠ "JsonWebTokenError"
              ∧ (err_code error = Some "LIMIT_FILE_SIZE" ∧ s = 413
                 ∨ err_code error ≠ Some "LIMIT_FILE_SIZE"
                   ∧ s = status_or_500 error))).
Proof.
  unfold global_error_handler.
  destruct (String.eqb_spec (err_name error) "MongoNetworkError") as [H1|H1]; simpl.
  { eexists _, _. split; [reflexivity|]. left. auto. }
  destruct (String.eqb_spec (err_name error) "MongoTimeoutError") as [H2|H2]; simpl.
  { eexists _, _. split; [reflexivity|]. left. auto. }
  destruct (String.eqb_spec (err_name error) "ValidationError") as [H3|H3].
  { eexists _, _. split; [reflexivity|]. right. split; [tauto|]. left. auto. }
  destruct (String.eqb_spec (err_name error) "JsonWebTokenError") as [H4|H4].
  { eexists _, _. split; [reflexivity|]. right. split; [tauto|]. right. left. auto. }
  case_bool_decide as H5.
  { eexists _, _. split; [reflexivity|]. right. split; [tauto|]. right. right.
    repeat split; try done. left. auto. }
  eexists _, _. split; [reflexivity|]. right. split; [tauto|]. right. right.
  repeat split; try done. right. auto.
Qed.

(** ** middleware/auth.js: the statuses of the failure responses *)






(** ** middleware/auth.js: [checkApiQuota] *)

Lemma quotaLimits_over_limit (t : SubscriptionType) (d m : Z) :
  exceeds d (daily (quotaLimits t)) || exceeds m (monthly (quotaLimits t)) = true
  ↔ over_limit t d m.
Proof.
  unfold over_limit. destruct t; simpl;
    rewrite ?orb_true_iff, ?Z.ltb_lt; try tauto.
  split; [discriminate | tauto].
Qed.

Lemma updateApiUsage_counters (env : Env) (this : UserDoc) :
  let this' := (updateApiUsage env this).1 in
  (new_calendar_day env this → dailyRequests (apiUsage this') = 1)
  ∧ (¬ new_calendar_day env this →
     dailyRequests (apiUsage this') = dailyRequests (apiUsage this) + 1)
  ∧ monthlyRequests (apiUsage this') = monthlyRequests (apiUsage this) + 1
  ∧ lastRequestDate (apiUsage this') = Some (now env)
  ∧ subscription_type this' = subscription_type this
  ∧ (quotaExceeded (apiUsage this') = true ↔
     over_limit (subscription_type this)
       (dailyRequests (apiUsage this')) (monthlyRequests (apiUsage this'))).
Proof.
  unfold new_calendar_day. simpl.
  destruct (lastRequestDate (apiUsage this)) as [d|]; simpl.
  - destruct (String.eqb_spec (toDateString env d) (toDateString env (now env)));
      simpl; repeat split; try tauto; try apply quotaLimits_over_limit;
      intros; tauto.
  - repeat split; try tauto; apply quotaLimits_over_limit.
Qed.

(** C6, as stated, fails: when saving the updated counters throws, the
    request is passed on although the counters exceed the limit.
    [heavy_user] is on the free tier with 100 requests made today; the next
    request brings the daily counter to 101. *)
Lemma checkApiQuota_passes_when_save_fails :
  let env := read_only (mongo [heavy_user] 43260000 "") in
  let (req, out) := checkApiQuota env (as_user heavy_user) in
  (dailyRequests <$> (apiUsage <$> userDoc req)) = Some 101
  ∧ over_limit free 101 101
  ∧ out = Next [].
Proof.
  vm_compute. split; [reflexivity|]. split; [left; reflexivity | reflexivity].
Qed.

(** C6, amended.  A request with no authenticated user always passes.  For
    an authenticated request the counters are updated first: the daily
    counter becomes 1 on a new calendar day and grows by one otherwise, the
    monthly counter always grows by one.  If saving the updated document
    succeeds, the request is rejected with 429 exactly when the updated
    counters exceed the tier's daily or monthly limit (free 100/1000, basic
    500/10000, premium 2000/50000, enterprise unlimited); if saving throws,
    the request passes. *)
Theorem checkApiQuota_quota (env : Env) (req : Request) :
  (userDoc req = None → checkApiQuota env req = (req, Next []))
  ∧ (∀ doc, userDoc req = Some doc →
     ∃ doc',
       userDoc (checkApiQuota env req).1 = Some doc'
       ∧ (new_calendar_day env doc → dailyRequests (apiUsage doc') = 1)
       ∧ (¬ new_calendar_day env doc →
          dailyRequests (apiUsage doc') = dailyRequests (apiUsage doc) + 1)
       ∧ monthlyRequests (apiUsage doc') = monthlyRequests (apiUsage doc) + 1
       ∧ ((∃ saved, save env doc' = Ok saved) →
          (status_of (checkApiQuota env req).2 = Some 429 ↔
           over_limit (subscription_type doc)
             (dailyRequests (apiUsage doc')) (monthlyRequests (apiUsage doc')))
          ∧ (¬ over_limit (subscription_type doc)
               (dailyRequests (apiUsage doc')) (monthlyRequests (apiUsage doc'))
             → (checkApiQuota env req).2 = Next []))
       ∧ ((∃ e, save env doc' = Throw e) → (checkApiQuota env req).2 = Next [])).
Proof.
  split.
  - unfold checkApiQuota. by intros ->.
  - intros doc Hdoc.
    pose proof (updateApiUsage_counters env doc) as (Hnew & Hsame & Hmonth & _ & Hsub & Hq).
    unfold checkApiQuota. rewrite Hdoc.
    destruct (updateApiUsage env doc) as [doc' saved] eqn:Hup.
    assert (saved = save env doc') as ->.
    { unfold updateApiUsage in Hup. by injection Hup as <- <-. }
    simpl in *. exists doc'.
    split; [by destruct (save env doc'); [destruct (quotaExceeded _)|] |].
    repeat split; try done.
    + intros H0. destruct H as [saved Hs]. rewrite Hs in H0.
      destruct (quotaExceeded (apiUsage doc')); simpl in H0; [by apply Hq | done].
    + intros Hover. destruct H as [saved Hs]. rewrite Hs.
      apply Hq in Hover. by rewrite Hover.
    + intros Hno. destruct H as [saved Hs]. rewrite Hs.
      destruct (quotaExceeded (apiUsage doc')); [|done].
      exfalso. apply Hno. by apply Hq.
    + intros [e He]. by rewrite He.
Qed.

Lemma checkApiQuota_quota_witness :
  let env := mongo [heavy_user] 43260000 "" in
  let req := as_user heavy_user in
  userDoc req = Some heavy_user
  ∧ ¬ new_calendar_day env heavy_user
  ∧ (∃ saved, save env (updateApiUsage env heavy_user).1 = Ok saved)
  ∧ over_limit free 101 101
  ∧ status_of (checkApiQuota env req).2 = Some 429.
Proof.
  pose proof (proj2 (checkApiQuota_quota (mongo [heavy_user] 43260000 "")
                       (as_user heavy_user)) heavy_user eq_refl)
    as (doc' & Hdoc & _ & _ & _ & Hsaved & _).
  vm_compute in Hdoc. injection Hdoc as <-.
  assert (∃ saved, save (mongo [heavy_user] 43260000 "")
                     (updateApiUsage (mongo [heavy_user] 43260000 "") heavy_user).1
                   = Ok saved) as Hok by (eexists; vm_compute; reflexivity).
  split; [reflexivity|]. split; [intros H; vm_compute in H; congruence|].
  split; [exact Hok|]. split; [unfold over_limit; simpl; lia|].
  apply (proj1 (Hsaved Hok)). unfold over_limit. simpl. lia.
Defined.

(** ** middleware/auth.js: [userRateLimit] *)

Lemma clean_old_lookup (t : Z) (m : gmap string Entry) (k : string) :
  clean_old t m !! k =
  match m !! k with
  | Some e => if resetTime e <? t then None else Some e
  | None => None
  end.
Proof.
  unfold clean_old. destruct (m !! k) as [e|] eqn:Hk.
  - destruct (Z.ltb_spec (resetTime e) t).
    + apply map_lookup_filter_None. right. intros x Hx. simpl.
      assert (x = e) as -> by congruence. tauto.
    + apply map_lookup_filter_Some. split; [done|]. simpl. lia.
  - apply map_lookup_filter_None. by left.
Qed.

(** "Get or create user request data": the entry in use, stored under the
    request's key in the cleaned map. *)
Lemma get_or_create (windowMinutes t : Z) (m : gmap string Entry) (k : string) :
  let fresh := mkEntry 0 (t + window_ms windowMinutes) in
  match clean_old t m !! k with
  | None => (fresh, <[k := fresh]> (clean_old t m))
  | Some e => if resetTime e <? t
              then (fresh, <[k := fresh]> (clean_old t m))
              else (e, clean_old t m)
  end
  = (entry_in_use windowMinutes t m k,
     <[k := entry_in_use windowMinutes t m k]> (clean_old t m)).
Proof.
  intros fresh. pose proof (clean_old_lookup t m k) as Hc.
  unfold entry_in_use. fold fresh. destruct (m !! k) as [e|].
  - destruct (resetTime e <? t) eqn:Hlt; rewrite Hc; [done|].
    rewrite Hlt. f_equal. symmetry. by apply insert_id.
  - by rewrite Hc.
Qed.

Lemma userRateLimit_unfold (maxRequests windowMinutes t : Z)
    (m : gmap string Entry) (req : Request) :
  let e := entry_in_use windowMinutes t m (rate_key req) in
  (maxRequests ≤ count e
   ∧ ∃ body, userRateLimit maxRequests windowMinutes m t req
             = (<[rate_key req := e]> (clean_old t m), Send 429 body))
  ∨ (count e < maxRequests
     ∧ userRateLimit maxRequests windowMinutes m t req
       = (<[rate_key req := mkEntry (count e + 1) (resetTime e)]> (clean_old t m),
          Next [("X-RateLimit-Limit", maxRequests);
                ("X-RateLimit-Remaining", maxRequests - (count e + 1));
                ("X-RateLimit-Reset", ceil_div_1000 (resetTime e))])).
Proof.
  intros e. unfold userRateLimit.
  rewrite (get_or_create windowMinutes t m (rate_key req)). fold e.
  destruct (Z.leb_spec maxRequests (count e)); [left | right]; (split; [done|]).
  - by eexists.
  - by rewrite insert_insert_eq.
Qed.

(** *** The map of the closure follows the fixed windows of the log *)

Section LimiterInvariant.

Variables maxRequests W : Z.
Hypothesis window_nonneg : 0 ≤ W.

Lemma window_ms_nonneg : 0 ≤ window_ms W.
Proof. unfold window_ms. lia. Qed.

Lemma window_opened_In (log : list Logged) (k : string) (o : Z) :
  window_opened W log k = Some o → ∃ l, In l log ∧ key l = k ∧ at_time l = o.
Proof.
  induction log as [|l log IH]; simpl; [discriminate|].
  destruct (String.eqb_spec (key l) k) as [Hk|Hk].
  - destruct (window_opened W log k) as [o'|].
    + destruct (o' + window_ms W <? at_time l).
      * intros [= <-]. exists l. auto.
      * intros [= <-]. destruct IH as (l' & ? & ? & ?); [done|]. exists l'. auto.
    + intros [= <-]. exists l. auto.
  - intros H. destruct (IH H) as (l' & ? & ? & ?). exists l'. auto.
Qed.

Lemma window_opened_None (log : list Logged) (k : string) :
  window_opened W log k = None → ∀ l, In l log → key l ≠ k.
Proof.
  induction log as [|l log IH]; simpl; [tauto|].
  destruct (String.eqb_spec (key l) k) as [Hk|Hk].
  - destruct (window_opened W log k) as [o'|]; [|discriminate].
    destruct (o' + window_ms W <? at_time l); discriminate.
  - intros H l' [<-|Hin]; auto.
Qed.

Lemma admitted_since_none (log : list Logged) (k : string) (o : Z) :
  (∀ l, In l log → key l = k → at_time l < o) → admitted_since log k o = 0.
Proof.
  induction log as [|l log IH]; simpl; [done|]. intros H.
  rewrite IH by auto.
  destruct (String.eqb_spec (key l) k) as [Hk|Hk]; simpl; [|done].
  specialize (H l (or_introl eq_refl) Hk).
  destruct (Z.leb_spec o (at_time l)); [lia|]. by rewrite andb_false_r.
Qed.

Lemma current_window_cases (log : list Logged) (k : string) (t : Z) :
  (current_window W log k t = t
   ∧ (window_opened W log k = None
      ∨ ∃ o, window_opened W log k = Some o ∧ o + window_ms W < t))
  ∨ (∃ o, window_opened W log k = Some o ∧ t ≤ o + window_ms W
          ∧ current_window W log k t = o).
Proof.
  unfold current_window. destruct (window_opened W log k) as [o|]; [|auto].
  destruct (Z.ltb_spec (o + window_ms W) t); [left|right]; eauto.
Qed.

Lemma window_opened_cons (log : list Logged) (k : string) (t : Z) (a : bool) :
  window_opened W (mkLogged t k a :: log) k = Some (current_window W log k t).
Proof.
  simpl. rewrite String.eqb_refl. unfold current_window.
  destruct (window_opened W log k) as [o|]; [|done].
  by destruct (o + window_ms W <? t).
Qed.

Lemma window_opened_cons_other (log : list Logged) (k k' : string) (t : Z) (a : bool) :
  k' ≠ k → window_opened W (mkLogged t k a :: log) k' = window_opened W log k'.
Proof.
  intros Hne. simpl. destruct (String.eqb_spec k k'); [congruence | done].
Qed.

(** The entry in use is the window the request falls in: it closes one
    window length after it opened, and counts the requests admitted since. *)
Lemma entry_in_use_window (tl t : Z) (st : gmap string Entry * list Logged)
    (k : string) :
  limiter_inv W tl st → tl ≤ t →
  let e := entry_in_use W t st.1 k in
  resetTime e = current_window W st.2 k t + window_ms W
  ∧ count e = admitted_since st.2 k (current_window W st.2 k t).
Proof.
  intros (I1 & I2 & I3 & I4) Htl. unfold entry_in_use.
  assert (∀ o, window_opened W st.2 k = Some o → o + window_ms W < t →
               admitted_since st.2 k t = 0) as Hexpired.
  { intros o Ho Hlt. apply admitted_since_none. intros l Hl Hk.
    specialize (I4 k o l Ho Hl Hk). lia. }
  destruct (st.1 !! k) as [e0|] eqn:Hk.
  - destruct (I2 k e0 Hk) as (o & Ho & Hreset & Hcount).
    unfold current_window. rewrite Ho, <- Hreset.
    destruct (Z.ltb_spec (resetTime e0) t); simpl.
    + split; [done|]. symmetry. apply (Hexpired o Ho). lia.
    + split; [lia | done].
  - destruct (current_window_cases st.2 k t) as [(-> & Hc) | (o & Ho & Hle & _)]; simpl.
    + split; [done|]. symmetry. destruct Hc as [Hnone | (o & Ho & Hlt)].
      * apply admitted_since_none. intros l Hl Hkl.
        by destruct (window_opened_None st.2 k Hnone l Hl).
      * by apply (Hexpired o Ho).
    + specialize (I3 k o Hk Ho). lia.
Qed.

(** One request keeps the invariant, as long as the clock has not gone back. *)
Lemma limiter_step_inv (tl t : Z) (st : gmap string Entry * list Logged)
    (req : Request) :
  limiter_inv W tl st → tl ≤ t →
  limiter_inv W t (limiter_step maxRequests W st (t, req)).
Proof.
  intros Hinv Htl.
  pose proof window_ms_nonneg as HWms.
  pose proof (entry_in_use_window tl t st (rate_key req) Hinv Htl) as [Hreset Hcount].
  destruct Hinv as (I1 & I2 & I3 & I4).
  set (k := rate_key req) in *. set (e := entry_in_use W t st.1 k) in *.
  set (ow := current_window W st.2 k t) in *.
  assert (ow ≤ t ∧ t ≤ ow + window_ms W
          ∧ ∀ l, In l st.2 → key l = k → at_time l ≤ ow + window_ms W)
    as (Hle & Hin & Hold).
  { subst ow. destruct (current_window_cases st.2 k t)
      as [(-> & _) | (o & Ho & Hle & ->)].
    - split; [lia|]. split; [lia|]. intros l Hl _. specialize (I1 l Hl). lia.
    - destruct (window_opened_In st.2 k o Ho) as (l & Hl & _ & <-).
      specialize (I1 l Hl). split; [lia|]. split; [lia|]. intros l' Hl' Hk'.
      by apply (I4 k). }
  assert (∃ a e',
    limiter_step maxRequests W st (t, req)
      = (<[k := e']> (clean_old t st.1), mkLogged t k a :: st.2)
    ∧ resetTime e' = ow + window_ms W
    ∧ count e' = (if a then 1 else 0) + count e) as (a & e' & -> & Hr' & Hc').
  { unfold limiter_step. simpl.
    destruct (userRateLimit_unfold maxRequests W t st.1 req)
      as [(_ & body & ->) | (_ & ->)]; simpl.
    - by exists false, e.
    - eexists true, _. split; [reflexivity|]. simpl.
      split; [done | unfold e, k; lia]. }
  pose proof (window_opened_cons st.2 k t a) as Hsame.
  pose proof (λ k', window_opened_cons_other st.2 k k' t a) as Hother.
  split; [|split; [|split]]; simpl fst; simpl snd.
  - intros l [<- | Hl]; simpl; [lia|]. specialize (I1 l Hl). lia.
  - intros k' e''. destruct (decide (k' = k)) as [-> | Hne].
    + rewrite lookup_insert_eq, Hsame. intros [= <-]. exists ow.
      split; [done|]. split; [done|]. rewrite Hc', Hcount. simpl.
      rewrite String.eqb_refl. destruct a; simpl; [|done].
      destruct (Z.leb_spec ow t); [done | lia].
    + rewrite lookup_insert_ne, clean_old_lookup, Hother by done.
      destruct (st.1 !! k') as [e0|] eqn:Hk'; [|discriminate].
      destruct (resetTime e0 <? t); [discriminate|]. intros [= <-].
      destruct (I2 k' e0 Hk') as (o & Ho & ? & ?). exists o. simpl.
      destruct (String.eqb_spec k k'); [congruence | done].
  - intros k' o. destruct (decide (k' = k)) as [-> | Hne].
    + by rewrite lookup_insert_eq.
    + rewrite lookup_insert_ne, clean_old_lookup, Hother by done.
      destruct (st.1 !! k') as [e0|] eqn:Hk'.
      * destruct (Z.ltb_spec (resetTime e0) t); [|discriminate]. intros _ Ho.
        destruct (I2 k' e0 Hk') as (o' & Ho' & ? & ?).
        assert (o' = o) by congruence. lia.
      * intros _ Ho. specialize (I3 k' o Hk' Ho). lia.
  - intros k' o l. destruct (decide (k' = k)) as [-> | Hne].
    + rewrite Hsame. intros [= <-] [<- | Hl] Hkl; simpl; [lia | by apply Hold].
    + rewrite Hother by done.
      intros Ho [<- | Hl] Hkl; simpl in *; [congruence|]. by apply (I4 k').
Qed.

Lemma limiter_inv_init (tl : Z) : limiter_inv W tl (∅, []).
Proof.
  repeat split; simpl; try tauto; try discriminate.
Qed.

(** A chronological trace keeps the invariant from any state that has it. *)
Lemma limiter_run_inv (trace : list (Z * Request)) :
  ∀ tl st t req,
    limiter_inv W tl st →
    chronological tl (trace ++ [(t, req)])%list →
    ∃ tl', tl' ≤ t
           ∧ limiter_inv W tl' (fold_left (limiter_step maxRequests W) trace st).
Proof.
  induction trace as [|[t1 r1] trace IH]; simpl; intros tl st t req Hinv.
  - intros [Hle _]. eauto.
  - intros [Hle Hrest].
    apply (IH t1 _ t req (limiter_step_inv tl t1 st r1 Hinv Hle) Hrest).
Qed.

End LimiterInvariant.

Lemma ceil_div_1000_is_ceiling (x : Z) :
  1000 * (ceil_div_1000 x - 1) < x ≤ 1000 * ceil_div_1000 x.
Proof.
  unfold ceil_div_1000.
  pose proof (Z.div_mod (- x) 1000 ltac:(lia)).
  pose proof (Z.mod_pos_bound (- x) 1000 ltac:(lia)). lia.
Qed.

(** C4, as stated, fails: the counter is not a sliding window.  With a limit
    of 2 per minute, requests from one address at 0 s, 59 s and 60.001 s are
    admitted; at 60.002 s the preceding minute holds two prior requests, both
    admitted, so a sliding window would reject, but the request is admitted:
    the window that opened at 0 s was dropped at 60.001 s with its count. *)
Lemma userRateLimit_is_not_sliding_window :
  let st := limiter_run 2 1 burst in
  chronological 0 (burst ++ [(60002, from_ip "10.0.0.1")])%list
  ∧ prior_in_window 1 st.2 "10.0.0.1" 60002 false = 2
  ∧ prior_in_window 1 st.2 "10.0.0.1" 60002 true = 2
  ∧ status_of (userRateLimit 2 1 st.1 60002 (from_ip "10.0.0.1")).2 = None.
Proof.
  split; [simpl; lia|]. vm_compute. auto.
Qed.

(** C4, amended.  [userRateLimit] keeps a process-local map and implements a
    fixed-window counter.  Along every sequence of requests whose clock
    readings do not decrease, with a non-negative window length, a request is
    rejected with 429 exactly when the number of requests of its key (user
    ID, or IP when unauthenticated) admitted since the key's current window
    opened has reached [maxRequests], and is admitted otherwise.  A window
    opens at the key's first request, and again at its first request after
    the reset time of the open window, [windowMinutes] minutes after that
    window opened. *)
Theorem userRateLimit_fixed_window (maxRequests windowMinutes : Z)
    (trace : list (Z * Request)) (t0 t : Z) (req : Request) :
  0 ≤ windowMinutes →
  chronological t0 (trace ++ [(t, req)])%list →
  let st := limiter_run maxRequests windowMinutes trace in
  let n := admitted_since st.2 (rate_key req)
             (current_window windowMinutes st.2 (rate_key req) t) in
  let out := (userRateLimit maxRequests windowMinutes st.1 t req).2 in
  (status_of out = Some 429 ↔ maxRequests ≤ n)
  ∧ (is_next out = true ↔ n < maxRequests).
Proof.
  intros HW Hchron st n out.
  destruct (limiter_run_inv maxRequests windowMinutes HW trace t0 (∅, []) t req
              (limiter_inv_init windowMinutes t0) Hchron) as (tl & Htl & Hinv).
  fold (limiter_run maxRequests windowMinutes trace) in Hinv. fold st in Hinv.
  pose proof (entry_in_use_window windowMinutes tl t st (rate_key req) Hinv Htl)
    as [_ Hcount].
  fold n in Hcount. simpl in Hcount. subst out.
  destruct (userRateLimit_unfold maxRequests windowMinutes t st.1 req)
    as [(Hge & body & ->) | (Hlt & ->)]; simpl in *.
  - split; split; intros; try done; lia.
  - split; split; intros; try done; lia.
Qed.

Lemma userRateLimit_fixed_window_witness :
  0 ≤ 1
  ∧ chronological 0 (burst ++ [(60002, from_ip "10.0.0.1")])%list
  ∧ let st := limiter_run 2 1 burst in
    let n := admitted_since st.2 "10.0.0.1" (current_window 1 st.2 "10.0.0.1" 60002) in
    let out := (userRateLimit 2 1 st.1 60002 (from_ip "10.0.0.1")).2 in
    (status_of out = Some 429 ↔ 2 ≤ n) ∧ (is_next out = true ↔ n < 2).
Proof.
  split; [lia|]. split; [simpl; lia|].
  apply (userRateLimit_fixed_window 2 1 burst 0 60002 (from_ip "10.0.0.1")).
  - lia.
  - simpl. lia.
Defined.

(** C7.  When [userRateLimit] admits a request, it sets the headers
    X-RateLimit-Limit, X-RateLimit-Remaining and X-RateLimit-Reset;
    X-RateLimit-Remaining is [maxRequests] minus the count stored for the
    request's key after the increment, and is not negative. *)
Theorem userRateLimit_headers (maxRequests windowMinutes t : Z)
    (requestCounts requestCounts' : gmap string Entry) (req : Request)
    (headers : list (string * Z)) :
  userRateLimit maxRequests windowMinutes requestCounts t req
    = (requestCounts', Next headers) →
  ∃ e,
    requestCounts' !! rate_key req = Some e
    ∧ count e = count (entry_in_use windowMinutes t requestCounts (rate_key req)) + 1
    ∧ headers = [("X-RateLimit-Limit", maxRequests);
                 ("X-RateLimit-Remaining", maxRequests - count e);
                 ("X-RateLimit-Reset", ceil_div_1000 (resetTime e))]
    ∧ 0 ≤ maxRequests - count e.
Proof.
  destruct (userRateLimit_unfold maxRequests windowMinutes t requestCounts req)
    as [(_ & body & ->) | (Hlt & ->)]; [discriminate|].
  intros [= <- <-]. eexists. rewrite lookup_insert_eq. split; [reflexivity|].
  simpl. split; [done|]. split; [done | lia].
Qed.

Lemma userRateLimit_headers_witness :
  userRateLimit 2 1 ∅ 0 (from_ip "10.0.0.1")
  = (<["10.0.0.1" := mkEntry 1 60000]> ∅,
     Next [("X-RateLimit-Limit", 2); ("X-RateLimit-Remaining", 1);
           ("X-RateLimit-Reset", 60)])
  ∧ ∃ e,
      (<["10.0.0.1" := mkEntry 1 60000]> ∅ : gmap string Entry) !! "10.0.0.1" = Some e
      ∧ count e = count (entry_in_use 1 0 ∅ "10.0.0.1") + 1
      ∧ [("X-RateLimit-Limit", 2); ("X-RateLimit-Remaining", 1); ("X-RateLimit-Reset", 60)]
        = [("X-RateLimit-Limit", 2);
           ("X-RateLimit-Remaining", 2 - count e);
           ("X-RateLimit-Reset", ceil_div_1000 (resetTime e))]
      ∧ 0 ≤ 2 - count e.
Proof.
  split; [vm_compute; reflexivity|].
  apply (userRateLimit_headers 2 1 0 ∅ _ (from_ip "10.0.0.1")).
  vm_compute. reflexivity.
Defined.

(** ** routes/auth.js: POST /api/auth/login *)

Example five_failures_lock_the_account :
  let bad := ada_login "wrong" in
  let good := ada_login "correct horse" in
  let '(o1, db) := serve_login [ada] 2000 bad in
  let '(o2, db) := serve_login db 2000 bad in
  let '(o3, db) := serve_login db 2000 bad in
  let '(o4, db) := serve_login db 2000 bad in
  let '(o5, db) := serve_login db 2000 bad in
  let '(o6, db6) := serve_login db 3000 good in
  let '(o7, db7) := serve_login db (2000 + 30 * 60 * 1000) good in
  map status_of [o1; o2; o3; o4; o5; o6; o7]
  = [Some 401; Some 401; Some 401; Some 401; Some 401; Some 423; Some 200]
  ∧ db = [locked_ada] ∧ db6 = db
  ∧ (loginAttempts <$> find_email db7 "ada@example.com") = Some 0.
Proof. vm_compute. auto. Qed.




(** ** routes/auth.js: POST /api/auth/signup *)

Example signup_creates_ada :
  serve_signup [] 1000 "u1" ada_body
  = (Send 201 (created_body ada "jwt.u1"), [ada]).
Proof. vm_compute. reflexivity. Qed.

Example signup_info_address_gets_500 :
  signup_valid info_body = true
  ∧ status_of (serve_signup [] 1000 "u3" info_body).1 = Some 500.
Proof. vm_compute. auto. Qed.

(** C5, as stated, fails: a request that passes every listed check, for an
    address no account has, is answered 500 and not 201 when creating the
    account throws.  Here the requested role is outside the enum of the
    schema, so [save] rejects the document. *)
Lemma signup_valid_body_gets_500 :
  signup_valid superuser_body = true
  ∧ find_email [] (toLowerCase "eve@example.com") = None
  ∧ status_of (serve_signup [] 1000 "u2" superuser_body).1 = Some 500.
Proof. vm_compute. auto. Qed.

Lemma signup_userResponse_keys (newUser : UserDoc) :
  ¬ In "password" (map fst (signup_userResponse newUser)).
Proof.
  unfold signup_userResponse. rewrite map_app. simpl.
  destruct (createdAt newUser); simpl; intuition discriminate.
Qed.

Lemma signup_valid_spec (body : Signup.Body) :
  signup_valid body = false ↔
  truthy (Signup.firstName body) = false ∨ truthy (Signup.lastName body) = false
  ∨ truthy (Signup.email body) = false ∨ truthy (Signup.password body) = false
  ∨ test emailRegex (default "" (Signup.email body)) = false
  ∨ Js.length (default "" (Signup.password body)) < 8.
Proof.
  unfold signup_valid. rewrite !andb_false_iff, Z.leb_gt. tauto.
Qed.

(** C5, amended.  The signup route answers 400 when any of first name, last
    name, email or password is missing or empty, when the email fails the
    format check, or when the password is shorter than 8 characters.  For a
    request that passes these checks it answers 409 when an account with the
    lowercased email exists; when none exists and hashing the password, saving
    the new document and signing the token all succeed, it answers 201 with
    the signed token and a user object that has no [password] property; when
    the lookup, the hashing, the saving or the signing throws, it answers
    500. *)
Theorem signup_statuses (env : Env) (body : Signup.Body) :
  let lookup := findOne env (toLowerCase (default "" (Signup.email body))) in
  let hashed := bcrypt_hash env (default "" (Signup.password body)) 12 in
  (truthy (Signup.firstName body) = false ∨ truthy (Signup.lastName body) = false
   ∨ truthy (Signup.email body) = false ∨ truthy (Signup.password body) = false
   ∨ test emailRegex (default "" (Signup.email body)) = false
   ∨ Js.length (default "" (Signup.password body)) < 8
   → status_of (signup env body).1 = Some 400)
  ∧ (signup_valid body = true →
     (∀ existingUser, lookup = Ok (Some existingUser) →
        status_of (signup env body).1 = Some 409)
     ∧ (∀ hashedPassword newUser token,
          lookup = Ok None →
          hashed = Ok hashedPassword →
          save env (signup_document env body hashedPassword) = Ok newUser →
          jwt_sign env (token_payload newUser) "7d" = Ok token →
          signup env body = (Send 201 (created_body newUser token), Some newUser)
          ∧ ¬ In "password" (map fst (signup_userResponse newUser)))
     ∧ ((∃ e, lookup = Throw e)
        ∨ lookup = Ok None
          ∧ ((∃ e, hashed = Throw e)
             ∨ ∃ hashedPassword, hashed = Ok hashedPassword
                 ∧ ((∃ e, save env (signup_document env body hashedPassword) = Throw e)
                    ∨ ∃ newUser e,
                        save env (signup_document env body hashedPassword) = Ok newUser
                        ∧ jwt_sign env (token_payload newUser) "7d" = Throw e))
        → status_of (signup env body).1 = Some 500)).
Proof.
  intros lookup hashed. split.
  - intros Hinvalid%signup_valid_spec. unfold signup, signup_valid in *.
    destruct (truthy (Signup.firstName body)); simpl in *; [|done].
    destruct (truthy (Signup.lastName body)); simpl in *; [|done].
    destruct (truthy (Signup.email body)); simpl in *; [|done].
    destruct (truthy (Signup.password body)); simpl in *; [|done].
    destruct (test emailRegex _); simpl in *; [|done].
    destruct (Z.leb_spec 8 (Js.length (default "" (Signup.password body)))); [done|].
    destruct (Z.ltb_spec (Js.length (default "" (Signup.password body))) 8); [done | lia].
  - intros Hvalid.
    assert (signup env body =
      match lookup with
      | Throw _ => signup_catch
      | Ok (Some _) =>
          (Send 409 (error_body "User already exists"
                                "An account with this email already exists"), None)
      | Ok None =>
          match hashed with
          | Throw _ => signup_catch
          | Ok hashedPassword =>
              match save env (signup_document env body hashedPassword) with
              | Throw _ => signup_catch
              | Ok newUser =>
                  match jwt_sign env (token_payload newUser) "7d" with
                  | Throw _ => (signup_catch.1, Some newUser)
                  | Ok token => (Send 201 (created_body newUser token), Some newUser)
                  end
              end
          end
      end) as ->.
    { unfold signup, signup_valid in *.
      destruct (truthy (Signup.firstName body)); simpl in *; [|done].
      destruct (truthy (Signup.lastName body)); simpl in *; [|done].
      destruct (truthy (Signup.email body)); simpl in *; [|done].
      destruct (truthy (Signup.password body)); simpl in *; [|done].
      destruct (test emailRegex _); simpl in *; [|done].
      destruct (Z.leb_spec 8 (Js.length (default "" (Signup.password body)))); [|done].
      destruct (Z.ltb_spec (Js.length (default "" (Signup.password body))) 8); [lia|].
      reflexivity. }
    split; [|split].
    + intros existingUser ->. reflexivity.
    + intros hashedPassword newUser token -> -> -> ->.
      split; [reflexivity | apply signup_userResponse_keys].
    + intros [[e ->] | [-> [[e ->] | (h & -> & [[e ->] | (u & e & -> & ->)])]]];
        reflexivity.
Qed.

Lemma signup_statuses_witness :
  let env := mongo [] 1000 "u1" in
  signup_valid ada_body = true
  ∧ findOne env (toLowerCase "Ada@Example.com") = Ok None
  ∧ bcrypt_hash env "correct horse" 12 = Ok (toy_hash "correct horse")
  ∧ save env (signup_document env ada_body (toy_hash "correct horse")) = Ok ada
  ∧ jwt_sign env (token_payload ada) "7d" = Ok "jwt.u1"
  ∧ signup env ada_body = (Send 201 (created_body ada "jwt.u1"), Some ada)
  ∧ ¬ In "password" (map fst (signup_userResponse ada)).
Proof.
  repeat (split; [reflexivity|]).
  apply (proj1 (proj2 (proj2 (signup_statuses (mongo [] 1000 "u1") ada_body) eq_refl))
           (toy_hash "correct horse") ada "jwt.u1"); reflexivity.
Defined.

(** ** routes/auth.js: POST /api/auth/forgot-password *)

(** C9.  For a request that supplies an email and is not answered with the
    server error, the response is status 200 with one fixed message, whatever
    the database holds: two runs on any two hosts send the same response. *)
Theorem forgot_password_hides_existence (env1 env2 : Env) (email : option string) :
  truthy email = true →
  status_of (forgot_password env1 email).1 ≠ Some 500 →
  status_of (forgot_password env2 email).1 ≠ Some 500 →
  (forgot_password env1 email).1 = Send 200 reset_message
  ∧ (forgot_password env2 email).1 = (forgot_password env1 email).1.
Proof.
  assert (∀ env, truthy email = true →
            status_of (forgot_password env email).1 ≠ Some 500 →
            (forgot_password env email).1 = Send 200 reset_message) as Hone.
  { intros env Hemail. unfold forgot_password, forgot_password_catch. rewrite Hemail. simpl.
    destruct (findOne env _) as [[user|]|]; simpl; [| done..].
    destruct (jwt_sign env _ _); simpl; [|done].
    by destruct (save env _). }
  intros Hemail H1 H2. rewrite !Hone by done. done.
Qed.

Lemma forgot_password_hides_existence_witness :
  let here := mongo [ada] 5000 "" in
  let nowhere := mongo [] 5000 "" in
  let email := Some "ada@example.com" in
  find_email [ada] "ada@example.com" = Some ada
  ∧ find_email [] "ada@example.com" = None
  ∧ truthy email = true
  ∧ status_of (forgot_password here email).1 ≠ Some 500
  ∧ status_of (forgot_password nowhere email).1 ≠ Some 500
  ∧ (forgot_password here email).1 = Send 200 reset_message
  ∧ (forgot_password nowhere email).1 = (forgot_password here email).1.
Proof.
  repeat (split; [first [reflexivity | vm_compute; discriminate]|]).
  apply (forgot_password_hides_existence (mongo [ada] 5000 "") (mongo [] 5000 "")
           (Some "ada@example.com")).
  - reflexivity.
  - vm_compute. discriminate.
  - vm_compute. discriminate.
Defined.

(** * Further properties *)

(** ** middleware/auth.js: the token and what [auth] attaches *)

Lemma substring_all (s : string) : String.substring 0 (String.length s) s = s.
Proof. induction s as [|c s IH]; simpl; [done | by rewrite IH]. Qed.

Lemma prefix_append (pat s : string) : String.prefix pat (pat ++ s) = true.
Proof.
  apply String.prefix_correct.
  induction pat as [|c pat IH]; simpl; [by destruct s | by rewrite IH].
Qed.

Lemma substring_append (pat s : string) (n : nat) :
  String.substring (String.length pat) n (pat ++ s) = String.substring 0 n s.
Proof. induction pat as [|c pat IH]; simpl; [done | exact IH]. Qed.

Lemma length_append (s1 s2 : string) :
  String.length (s1 ++ s2) = (String.length s1 + String.length s2)%nat.
Proof. induction s1 as [|c s1 IH]; simpl; [done | by rewrite IH]. Qed.

(** Replacing a pattern at the head of a string. *)
Lemma replace_at_head (pat rep s : string) :
  Js.replace pat rep (pat ++ s) = (rep ++ s)%string.
Proof.
  assert (∀ x, Js.replace pat rep x =
               if String.prefix pat x
               then (rep ++ String.substring (String.length pat)
                              (String.length x - String.length pat) x)%string
               else match x with
                    | EmptyString => EmptyString
                    | String c x' => String c (Js.replace pat rep x')
                    end) as Hunfold by (by intros [|c x]).
  rewrite Hunfold, prefix_append, substring_append, length_append.
  replace (String.length pat + String.length s - String.length pat)%nat
    with (String.length s) by lia.
  by rewrite substring_all.
Qed.

(** X1.  A token sent as [Authorization: Bearer <token>] is the token the
    middleware verifies, whatever the [x-auth-token] header and the query
    hold; an [Authorization] header that is just the prefix falls through to
    them. *)
Theorem request_token_bearer (token : string) (x q : option string) (addr : string)
    (u : option Jwt.Payload) (d : option UserDoc) :
  (token ≠ "" →
   request_token (mkRequest (Some ("Bearer " ++ token)) x q addr u d) = Some token)
  ∧ request_token (mkRequest (Some "Bearer ") x q addr u d) = Js.or x q.
Proof.
  split; [|reflexivity].
  intros Hne. unfold request_token. cbn [authorization x_auth_token query_token fmap option_fmap option_map].
  rewrite (replace_at_head "Bearer " "" token). unfold Js.or, truthy.
  change ("" ++ token)%string with token.
  assert ((token =? "")%string = false) as Hnot by (by apply String.eqb_neq).
  rewrite Hnot. simpl. by rewrite Hnot.
Qed.

Lemma request_token_bearer_witness :
  "jwt.u1" ≠ ""
  ∧ request_token (mkRequest (Some ("Bearer " ++ "jwt.u1")) (Some "other") None
                     "10.0.0.1" None None) = Some "jwt.u1".
Proof.
  assert ("jwt.u1" ≠ "") as Hne by discriminate.
  split; [exact Hne|].
  apply (proj1 (request_token_bearer "jwt.u1" (Some "other") None "10.0.0.1" None None) Hne).
Defined.

(** X2.  [auth] calls [next()] exactly when the request carries a non-empty
    token that verifies, the user the token names is found, and saving the
    user's activity succeeds; it then leaves the decoded payload in
    [req.user] and the user, with [lastActive] at the current time, in
    [req.userDoc], and sets no header. *)
Theorem auth_next_iff (env : Env) (req req' : Request) (h : list (string * Z)) :
  auth env req = (req', Next h) ↔
  ∃ token decoded u saved,
    request_token req = Some token ∧ token ≠ ""
    ∧ jwt_verify env token = Ok decoded
    ∧ findById env (Jwt.userId decoded) = Ok (Some u)
    ∧ save env (set_lastActive (now env) u) = Ok saved
    ∧ req' = set_user (Some decoded) (Some (set_lastActive (now env) u)) req
    ∧ h = [].
Proof.
  unfold auth, auth_catch. split.
  - destruct (request_token req) as [token|]; [|discriminate].
    destruct (String.eqb_spec token ""); [discriminate|].
    destruct (jwt_verify env token) as [decoded|e] eqn:Hv.
    2: { repeat case_match; discriminate. }
    destruct (findById env _) as [[u|]|e] eqn:Hf; [|discriminate|].
    2: { repeat case_match; discriminate. }
    destruct (save env _) as [saved|e] eqn:Hs.
    2: { repeat case_match; discriminate. }
    intros [= <- <-]. exists token, decoded, u, saved. auto 10.
  - intros (token & decoded & u & saved & -> & Hne & -> & -> & -> & -> & ->).
    by destruct (String.eqb_spec token "").
Qed.

Lemma auth_next_iff_witness :
  auth (mongo [ada] 2000 "") (bearer "jwt.u1")
  = (set_user (Some (Jwt.mkPayload "u1" "ada@example.com" "individual"))
       (Some (set_lastActive 2000 ada)) (bearer "jwt.u1"), Next []).
Proof.
  apply (proj2 (auth_next_iff (mongo [ada] 2000 "") (bearer "jwt.u1") _ [])).
  exists "jwt.u1", (Jwt.mkPayload "u1" "ada@example.com" "individual"), ada,
    (set_lastActive 2000 ada).
  repeat split; try reflexivity. discriminate.
Defined.

(** X3.  After [auth], [authorize] decides on the role inside the token, not
    on the stored user: it passes exactly when the token's role is among the
    allowed ones and answers 403 otherwise.  [requirePermission] decides on
    the stored user: it passes exactly when that user's [hasPermission] is
    truthy. *)
Theorem authorize_trusts_token_role (env : Env) (req req' : Request)
    (h : list (string * Z)) (token : string) (decoded : Jwt.Payload) (u : UserDoc)
    (roles : list string) (res action : string) :
  auth env req = (req', Next h) →
  request_token req = Some token →
  jwt_verify env token = Ok decoded →
  findById env (Jwt.userId decoded) = Ok (Some u) →
  (authorize roles req' = Next [] ↔ In (Jwt.role decoded) roles)
  ∧ (¬ In (Jwt.role decoded) roles → status_of (authorize roles req') = Some 403)
  ∧ (requirePermission res action req' = Next []
     ↔ truthy_bool (hasPermission u res action) = true)
  ∧ (truthy_bool (hasPermission u res action) = false
     → status_of (requirePermission res action req') = Some 403).
Proof.
  intros Hauth Htok Hv Hf.
  apply auth_next_iff in Hauth
    as (token' & decoded' & u' & saved & Htok' & _ & Hv' & Hf' & _ & -> & _).
  assert (token' = token) as -> by congruence.
  assert (decoded' = decoded) as -> by congruence.
  assert (u' = u) as -> by congruence.
  unfold authorize, requirePermission. simpl.
  assert (hasPermission (set_lastActive (now env) u) res action
          = hasPermission u res action) as -> by reflexivity.
  pose proof (includes_In roles (Jwt.role decoded)) as Hin.
  destruct (includes roles (Jwt.role decoded)) eqn:Hinc;
    destruct (truthy_bool (hasPermission u res action)) eqn:Ht; simpl;
    split_and!; try done; try (split; [done | discriminate]);
    try (split; [discriminate | done]);
    try (split; [intros _; by apply Hin | done]);
    try (intros Hno; exfalso; apply Hno; by apply Hin);
    try (split; [discriminate | intros Hyes%Hin; discriminate]).
Qed.

Lemma authorize_trusts_token_role_witness :
  let env := stale_admin (mongo [ada] 2000 "") "old-token" in
  let req' := (auth env (bearer "old-token")).1 in
  role ada = "individual"
  ∧ authorize ["admin"] req' = Next []
  ∧ status_of (requirePermission "sensors" "write" req') = Some 403.
Proof.
  pose proof (authorize_trusts_token_role
                (stale_admin (mongo [ada] 2000 "") "old-token")
                (bearer "old-token") _ [] "old-token"
                (Jwt.mkPayload "u1" "ada@example.com" "admin") ada ["admin"]
                "sensors" "write" eq_refl eq_refl eq_refl eq_refl)
    as (H1 & _ & _ & H4).
  split; [reflexivity|]. split.
  - apply H1. simpl. auto.
  - apply H4. reflexivity.
Defined.

(** ** middleware/auth.js: more on [userRateLimit] *)

Lemma entry_in_use_live (W t : Z) (m : gmap string Entry) (k : string) :
  0 ≤ W → t ≤ resetTime (entry_in_use W t m k).
Proof.
  intros HW. pose proof (window_ms_nonneg W HW). unfold entry_in_use.
  destruct (m !! k) as [e|]; simpl; [|lia].
  destruct (Z.ltb_spec (resetTime e) t); simpl; lia.
Qed.

Lemma userRateLimit_map (maxRequests W t : Z) (m : gmap string Entry)
    (req : Request) :
  ∃ e, (userRateLimit maxRequests W m t req).1
       = <[rate_key req := e]> (clean_old t m)
       ∧ resetTime e = resetTime (entry_in_use W t m (rate_key req)).
Proof.
  destruct (userRateLimit_unfold maxRequests W t m req)
    as [(_ & body & ->) | (_ & ->)]; eauto.
Qed.

(** X4.  After a request at time [t], with a non-negative window length, the
    map of the limiter holds no entry whose reset time has passed, and the
    entry of every other key that has not expired is exactly what it was:
    one key's requests never change another key's count. *)
Theorem userRateLimit_map_after (maxRequests windowMinutes t : Z)
    (requestCounts : gmap string Entry) (req : Request) :
  0 ≤ windowMinutes →
  let after := (userRateLimit maxRequests windowMinutes requestCounts t req).1 in
  (∀ k e, after !! k = Some e → t ≤ resetTime e)
  ∧ (∀ k e, k ≠ rate_key req → requestCounts !! k = Some e → t ≤ resetTime e →
       after !! k = Some e)
  ∧ (∀ k e, k ≠ rate_key req → after !! k = Some e → requestCounts !! k = Some e).
Proof.
  intros HW after.
  destruct (userRateLimit_map maxRequests windowMinutes t requestCounts req)
    as (e0 & Hafter & Hreset).
  subst after. rewrite Hafter. split_and!.
  - intros k e. destruct (decide (k = rate_key req)) as [->|Hne].
    + rewrite lookup_insert_eq. intros [= <-]. rewrite Hreset.
      by apply entry_in_use_live.
    + rewrite lookup_insert_ne, clean_old_lookup by done.
      destruct (requestCounts !! k) as [e'|]; [|discriminate].
      destruct (Z.ltb_spec (resetTime e') t); [discriminate|]. by intros [= <-].
  - intros k e Hne Hk Hlive.
    rewrite lookup_insert_ne, clean_old_lookup, Hk by done.
    destruct (Z.ltb_spec (resetTime e) t); [lia | done].
  - intros k e Hne. rewrite lookup_insert_ne, clean_old_lookup by done.
    destruct (requestCounts !! k) as [e'|]; [|discriminate].
    by destruct (resetTime e' <? t).
Qed.

Lemma userRateLimit_map_after_witness :
  let before : gmap string Entry :=
    <["10.0.0.2" := mkEntry 2 90000]> (<["10.0.0.3" := mkEntry 1 100]> ∅) in
  let after := (userRateLimit 2 1 before 60000 (from_ip "10.0.0.1")).1 in
  0 ≤ 1
  ∧ after !! "10.0.0.2" = Some (mkEntry 2 90000)
  ∧ after !! "10.0.0.3" = None.
Proof.
  split; [lia|]. split.
  - apply (proj1 (proj2 (userRateLimit_map_after 2 1 60000
                           (<["10.0.0.2" := mkEntry 2 90000]>
                              (<["10.0.0.3" := mkEntry 1 100]> ∅))
                           (from_ip "10.0.0.1") ltac:(lia)))).
    + discriminate.
    + vm_compute. reflexivity.
    + simpl. lia.
  - vm_compute. reflexivity.
Defined.

Lemma userRateLimit_rejected (maxRequests W t : Z) (m after : gmap string Entry)
    (req : Request) (s : Z) (body : Json) :
  userRateLimit maxRequests W m t req = (after, Send s body) →
  let e := entry_in_use W t m (rate_key req) in
  after = <[rate_key req := e]> (clean_old t m)
  ∧ maxRequests ≤ count e
  ∧ s = 429
  ∧ json_field "resetTime" body = Some (JNum (resetTime e)).
Proof.
  unfold userRateLimit. rewrite get_or_create.
  destruct (Z.leb_spec maxRequests (count (entry_in_use W t m (rate_key req))));
    [|discriminate].
  intros [= <- <- <-]. done.
Qed.

(** X5.  The [resetTime] in a 429 body is honest.  When a request is
    rejected, the next request of the same key is rejected again if it comes
    at or before that time, and, for a positive limit, admitted if it comes
    after it. *)
Theorem userRateLimit_retry (maxRequests windowMinutes t : Z)
    (requestCounts after : gmap string Entry) (req : Request)
    (s : Z) (body : Json) :
  userRateLimit maxRequests windowMinutes requestCounts t req
    = (after, Send s body) →
  ∃ r,
    json_field "resetTime" body = Some (JNum r)
    ∧ (∀ t' req', rate_key req' = rate_key req → t' ≤ r →
         status_of (userRateLimit maxRequests windowMinutes after t' req').2
         = Some 429)
    ∧ (∀ t' req', rate_key req' = rate_key req → r < t' → 0 < maxRequests →
         is_next (userRateLimit maxRequests windowMinutes after t' req').2 = true).
Proof.
  intros Hres.
  apply userRateLimit_rejected in Hres as (-> & Hge & _ & Hbody).
  set (e := entry_in_use windowMinutes t requestCounts (rate_key req)) in *.
  exists (resetTime e). split; [done|]. split.
  - intros t' req' Hkey Hle.
    destruct (userRateLimit_unfold maxRequests windowMinutes t'
                (<[rate_key req := e]> (clean_old t requestCounts)) req')
      as [(_ & b & ->) | (Hlt & _)]; [done|].
    exfalso. revert Hlt. unfold entry_in_use.
    rewrite Hkey, lookup_insert_eq.
    destruct (Z.ltb_spec (resetTime e) t'); simpl; lia.
  - intros t' req' Hkey Hlt Hpos.
    destruct (userRateLimit_unfold maxRequests windowMinutes t'
                (<[rate_key req := e]> (clean_old t requestCounts)) req')
      as [(Hge' & _) | (_ & ->)]; [|done].
    exfalso. revert Hge'. unfold entry_in_use.
    rewrite Hkey, lookup_insert_eq.
    destruct (Z.ltb_spec (resetTime e) t'); simpl; lia.
Qed.

Lemma userRateLimit_retry_witness :
  let full : gmap string Entry := <["10.0.0.1" := mkEntry 2 60000]> ∅ in
  let rejected := userRateLimit 2 1 full 30000 (from_ip "10.0.0.1") in
  status_of rejected.2 = Some 429
  ∧ ∃ r,
      (∀ t', t' ≤ r →
         status_of (userRateLimit 2 1 rejected.1 t' (from_ip "10.0.0.1")).2 = Some 429)
      ∧ (∀ t', r < t' →
         is_next (userRateLimit 2 1 rejected.1 t' (from_ip "10.0.0.1")).2 = true).
Proof.
  split; [vm_compute; reflexivity|].
  destruct (userRateLimit_retry 2 1 30000 (<["10.0.0.1" := mkEntry 2 60000]> ∅)
              (userRateLimit 2 1 (<["10.0.0.1" := mkEntry 2 60000]> ∅) 30000
                 (from_ip "10.0.0.1")).1
              (from_ip "10.0.0.1") 429
              (JObj [("error", JStr "Rate limit exceeded");
                     ("message",
                      JStr "Too many requests. Limit: 2 per 1 minutes");
                     ("resetTime", JNum 60000)]))
    as (r & _ & Hbefore & Hafter).
  { vm_compute. reflexivity. }
  exists r. split.
  - intros t' Hle. by apply Hbefore.
  - intros t' Hlt. apply Hafter; [done | done | lia].
Defined.

(** *** No window admits more than the limit *)

Section WindowBound.

Variables maxRequests W : Z.
Hypothesis window_nonneg : 0 ≤ W.

Lemma admitted_since_cons_other (log : list Logged) (k k' : string) (t o : Z)
    (a : bool) :
  k' ≠ k → admitted_since (mkLogged t k a :: log) k' o = admitted_since log k' o.
Proof.
  intros Hne. simpl. destruct (String.eqb_spec k k'); [congruence | done].
Qed.

Lemma limiter_step_bounded (tl t : Z) (st : gmap string Entry * list Logged)
    (req : Request) :
  limiter_inv W tl st → tl ≤ t →
  windows_bounded maxRequests W st.2 →
  windows_bounded maxRequests W (limiter_step maxRequests W st (t, req)).2.
Proof.
  intros Hinv Htl Hb.
  pose proof (entry_in_use_window W tl t st (rate_key req) Hinv Htl) as [_ Hcount].
  set (k := rate_key req) in *. set (e := entry_in_use W t st.1 k) in *.
  set (ow := current_window W st.2 k t) in *.
  assert (admitted_since st.2 k ow ≤ Z.max 0 maxRequests) as Hold.
  { subst ow. destruct (current_window_cases W st.2 k t)
      as [(Heq & Hc) | (o & Ho & _ & ->)]; [|by apply Hb].
    rewrite <- Hcount. subst e. unfold entry_in_use.
    destruct Hinv as (_ & I2 & I3 & _).
    destruct (st.1 !! k) as [e0|] eqn:Hk; simpl; [|lia].
    destruct (Z.ltb_spec (resetTime e0) t); simpl; [lia|].
    destruct (I2 k e0 Hk) as (o & Ho & Hr & Hc0).
    destruct Hc as [Hnone | (o' & Ho' & Hlt)]; [congruence|].
    assert (o' = o) by congruence. lia. }
  assert (∃ a, (limiter_step maxRequests W st (t, req)).2 = mkLogged t k a :: st.2
               ∧ (a = true → count e < maxRequests)) as (a & -> & Ha).
  { unfold limiter_step. simpl.
    destruct (userRateLimit_unfold maxRequests W t st.1 req)
      as [(_ & body & ->) | (Hlt & ->)]; simpl.
    - by exists false.
    - by exists true. }
  intros k' o. destruct (decide (k' = k)) as [-> | Hne].
  - rewrite window_opened_cons. intros [= <-]. simpl.
    rewrite String.eqb_refl. simpl. fold ow.
    destruct a; simpl; [|lia].
    specialize (Ha eq_refl). destruct (ow <=? t); lia.
  - rewrite window_opened_cons_other, admitted_since_cons_other by done.
    apply Hb.
Qed.

Lemma limiter_run_bounded (trace : list (Z * Request)) :
  ∀ tl st,
    limiter_inv W tl st → windows_bounded maxRequests W st.2 →
    chronological tl trace →
    windows_bounded maxRequests W
      (fold_left (limiter_step maxRequests W) trace st).2.
Proof.
  induction trace as [|[t1 r1] trace IH]; simpl; intros tl st Hinv Hb; [done|].
  intros [Hle Hrest]. apply (IH t1); [| |done].
  - by apply (limiter_step_inv maxRequests W window_nonneg tl).
  - by apply (limiter_step_bounded tl).
Qed.

End WindowBound.

(** X6.  Along every sequence of requests whose clock readings do not
    decrease, with a non-negative window length, no window of any key admits
    more than [maxRequests] requests: the requests of a key admitted since
    its latest window opened never number more than the limit (or zero, for a
    negative limit). *)
Theorem userRateLimit_window_bound (maxRequests windowMinutes t0 : Z)
    (trace : list (Z * Request)) (k : string) (o : Z) :
  0 ≤ windowMinutes →
  chronological t0 trace →
  let log := (limiter_run maxRequests windowMinutes trace).2 in
  window_opened windowMinutes log k = Some o →
  admitted_since log k o ≤ Z.max 0 maxRequests.
Proof.
  intros HW Hchron log.
  apply (limiter_run_bounded maxRequests windowMinutes HW trace t0 (∅, [])
           (limiter_inv_init windowMinutes t0)); [|done].
  intros k' o'. discriminate.
Qed.

Lemma userRateLimit_window_bound_witness :
  let log := (limiter_run 2 1 (burst ++ [(60002, from_ip "10.0.0.1");
                                         (60003, from_ip "10.0.0.1")])).2 in
  0 ≤ 1
  ∧ window_opened 1 log "10.0.0.1" = Some 60001
  ∧ admitted_since log "10.0.0.1" 60001 ≤ Z.max 0 2.
Proof.
  split; [lia|].
  assert (window_opened 1
            (limiter_run 2 1 (burst ++ [(60002, from_ip "10.0.0.1");
                                        (60003, from_ip "10.0.0.1")])).2
            "10.0.0.1" = Some 60001) as Hw by (vm_compute; reflexivity).
  split; [exact Hw|].
  apply (userRateLimit_window_bound 2 1 0
           (burst ++ [(60002, from_ip "10.0.0.1"); (60003, from_ip "10.0.0.1")])
           "10.0.0.1" 60001); [lia | simpl; lia | exact Hw].
Defined.

(** ** middleware/auth.js and user.js: the quota over many requests *)

Lemma checkApiQuota_step (env : Env) (doc : UserDoc) :
  persists env →
  let doc' := (updateApiUsage env doc).1 in
  checkApiQuota env (as_user doc)
  = (set_user (user (as_user doc)) (Some doc') (as_user doc),
     (checkApiQuota env (as_user doc)).2)
  ∧ (quotaExceeded (apiUsage doc') = true
     → status_of (checkApiQuota env (as_user doc)).2 = Some 429)
  ∧ (quotaExceeded (apiUsage doc') = false
     → (checkApiQuota env (as_user doc)).2 = Next []).
Proof.
  intros Hp. unfold checkApiQuota, updateApiUsage, as_user.
  cbn [userDoc user]. rewrite Hp. cbn [fst snd apiUsage set_apiUsage quotaExceeded].
  destruct (exceeds _ _ || exceeds _ _); simpl; split_and!; done.
Qed.

(** X7.  The monthly limit locks until the counter is reset.  When the
    monthly counter of a user on a limited tier has reached the tier's
    monthly limit and saving succeeds, [checkApiQuota] rejects the request
    with 429 on whatever day it comes and however low the daily counter is;
    the document it has updated is on the same tier, has [quotaExceeded]
    set and a monthly counter that is again at or over the limit, so the
    next request that works on it is in the same position.  The rejected
    request is counted: below 2^53, where adding one is exact, the monthly
    counter is one higher. *)
Theorem monthly_limit_locks (env : Env) (req : Request) (doc : UserDoc) (d m : Z) :
  userDoc req = Some doc →
  tier_limits (subscription_type doc) = Some (d, m) →
  m ≤ monthlyRequests (apiUsage doc) →
  (∃ saved, save env (updateApiUsage env doc).1 = Ok saved) →
  let doc' := (updateApiUsage env doc).1 in
  status_of (checkApiQuota env req).2 = Some 429
  ∧ userDoc (checkApiQuota env req).1 = Some doc'
  ∧ quotaExceeded (apiUsage doc') = true
  ∧ tier_limits (subscription_type doc') = Some (d, m)
  ∧ m ≤ monthlyRequests (apiUsage doc')
  ∧ (monthlyRequests (apiUsage doc) < 2 ^ 53 →
     monthlyRequests (apiUsage doc') = monthlyRequests (apiUsage doc) + 1).
Proof.
  intros Hdoc Htier Hm (saved & Hsave) doc'.
  pose proof (updateApiUsage_counters env doc) as (_ & _ & Hmonth & _ & Hsub & Hq).
  cbn zeta in *. fold doc' in Hsave, Hmonth, Hsub, Hq.
  assert (quotaExceeded (apiUsage doc') = true) as Hflag.
  { apply Hq. unfold over_limit. rewrite Htier. lia. }
  assert (checkApiQuota env req
          = (set_user (user req) (Some doc') req,
             (checkApiQuota env req).2)
          ∧ status_of (checkApiQuota env req).2 = Some 429) as [Heq Hstatus].
  { unfold checkApiQuota. rewrite Hdoc.
    change (updateApiUsage env doc) with (doc', save env doc').
    cbn iota beta. rewrite Hsave, Hflag. done. }
  split_and!.
  - exact Hstatus.
  - by rewrite Heq.
  - exact Hflag.
  - by rewrite Hsub.
  - lia.
  - intros _. exact Hmonth.
Qed.

Lemma monthly_limit_locks_witness :
  let env := lenient 86400000 in
  userDoc (as_user spent_user) = Some spent_user
  ∧ tier_limits (subscription_type spent_user) = Some (100, 1000)
  ∧ 1000 ≤ monthlyRequests (apiUsage spent_user)
  ∧ new_calendar_day env spent_user
  ∧ status_of (checkApiQuota env (as_user spent_user)).2 = Some 429
  ∧ monthlyRequests (apiUsage (updateApiUsage env spent_user).1) = 1001.
Proof.
  destruct (monthly_limit_locks (lenient 86400000) (as_user spent_user) spent_user
              100 1000 eq_refl eq_refl ltac:(simpl; lia)
              ltac:(eexists; reflexivity))
    as (H429 & _ & _ & _ & _ & Hcount).
  split; [reflexivity|]. split; [reflexivity|]. split; [simpl; lia|].
  split; [vm_compute; discriminate|]. split; [exact H429|].
  rewrite Hcount; [reflexivity|]. simpl. lia.
Defined.

(** X8.  [resetMonthlyUsage] sets the monthly counter to 0 and clears
    [quotaExceeded] but leaves the daily counter; on the next request the
    monthly counter is 1, and the request is rejected exactly when the
    updated daily counter exceeds the daily limit of a limited tier. *)
Theorem resetMonthlyUsage_then_check (env0 env : Env) (doc : UserDoc) :
  persists env →
  let doc1 := (resetMonthlyUsage env0 doc).1 in
  let doc2 := (updateApiUsage env doc1).1 in
  monthlyRequests (apiUsage doc1) = 0
  ∧ quotaExceeded (apiUsage doc1) = false
  ∧ dailyRequests (apiUsage doc1) = dailyRequests (apiUsage doc)
  ∧ monthlyRequests (apiUsage doc2) = 1
  ∧ (status_of (checkApiQuota env (as_user doc1)).2 = Some 429
     ↔ ∃ d m, tier_limits (subscription_type doc) = Some (d, m)
              ∧ d < dailyRequests (apiUsage doc2)).
Proof.
  intros Hp doc1 doc2.
  pose proof (checkApiQuota_step env doc1 Hp) as (_ & Hyes & Hno).
  pose proof (updateApiUsage_counters env doc1) as (_ & _ & Hmonth & _ & Hsub & Hq).
  cbn zeta in *. fold doc2 in Hyes, Hno, Hmonth, Hsub, Hq.
  assert (monthlyRequests (apiUsage doc1) = 0) as H0 by reflexivity.
  assert (subscription_type doc1 = subscription_type doc) as Hsub1 by reflexivity.
  rewrite H0 in Hmonth. rewrite Hsub1 in Hq.
  split_and!; try done.
  unfold over_limit in Hq. rewrite Hmonth in Hq.
  destruct (quotaExceeded (apiUsage doc2)) eqn:Hflag.
  - rewrite (Hyes eq_refl). split; [intros _ | done].
    destruct Hq as [Hq _]. specialize (Hq eq_refl).
    destruct (subscription_type doc); simpl in *; try done;
      (destruct Hq as [?|?]; [eauto | lia]).
  - rewrite (Hno eq_refl). split; [discriminate|].
    intros (d & m & Htier & Hd). destruct Hq as [_ Hq].
    rewrite Htier in Hq. assert (false = true); [|done]. apply Hq. by left.
Qed.

Lemma resetMonthlyUsage_then_check_witness :
  let doc1 := (resetMonthlyUsage (lenient 43260000) spent_user).1 in
  persists (lenient 43260000)
  ∧ status_of (checkApiQuota (lenient 43260000) (as_user spent_user)).2 = Some 429
  ∧ monthlyRequests (apiUsage (updateApiUsage (lenient 43260000) doc1).1) = 1
  ∧ ¬ status_of (checkApiQuota (lenient 43260000) (as_user doc1)).2 = Some 429.
Proof.
  assert (persists (lenient 43260000)) as Hp by (intros d; reflexivity).
  pose proof (resetMonthlyUsage_then_check (lenient 43260000) (lenient 43260000)
                spent_user Hp) as (_ & _ & _ & H1 & H429).
  split; [exact Hp|]. split; [vm_compute; reflexivity|]. split; [exact H1|].
  intros H. apply H429 in H as (d & m & Htier & Hd).
  vm_compute in Htier. injection Htier as <- <-. vm_compute in Hd. discriminate.
Defined.

(** ** routes/auth.js: more on login *)

Lemma login_found (env : Env) (body : Login.Body) (u : UserDoc) :
  truthy (Login.email body) = true →
  truthy (Login.password body) = true →
  findOne env (toLowerCase (default "" (Login.email body))) = Ok (Some u) →
  login env body =
  if 5 <=? loginAttempts u
  then match lastLoginAttempt u with
       | None => (login_catch, None)
       | Some attempt =>
           if now env <? attempt + 30 * 60 * 1000
           then (Send 423 locked_body, None)
           else login_verify env body u
       end
  else login_verify env body u.
Proof. intros He Hp Hf. unfold login. by rewrite He, Hp, Hf. Qed.

(** X9.  With both credentials supplied, login answers an unknown address
    and a wrong password for a known, unlocked account with the same
    response, 401 "Invalid credentials"; a locked account is answered 423,
    which differs. *)
Theorem login_unknown_or_wrong (env1 env2 : Env) (body : Login.Body) (u : UserDoc) :
  truthy (Login.email body) = true →
  truthy (Login.password body) = true →
  findOne env1 (toLowerCase (default "" (Login.email body))) = Ok None →
  findOne env2 (toLowerCase (default "" (Login.email body))) = Ok (Some u) →
  ((loginAttempts u < 5
    ∨ ∃ attempt, lastLoginAttempt u = Some attempt
                 ∧ attempt + 30 * 60 * 1000 ≤ now env2) →
   bcrypt_compare env2 (default "" (Login.password body)) (password u) = Ok false →
   (∃ saved, save env2 (login_failure_document env2 u) = Ok saved) →
   (login env1 body).1 = invalid_credentials
   ∧ (login env2 body).1 = (login env1 body).1)
  ∧ (∀ attempt, 5 ≤ loginAttempts u → lastLoginAttempt u = Some attempt →
       now env2 < attempt + 30 * 60 * 1000 →
       (login env2 body).1 ≠ (login env1 body).1).
Proof.
  intros He Hp H1 H2.
  assert (login env1 body = (invalid_credentials, None)) as Hunknown.
  { unfold login. by rewrite He, Hp, H1. }
  rewrite (login_found env2 body u He Hp H2), Hunknown. split.
  - intros Hopen Hcmp (saved & Hsave). split; [done|].
    assert (login_verify env2 body u = (invalid_credentials, Some saved)) as Hv.
    { unfold login_verify. rewrite Hcmp. fold (login_failure_document env2 u).
      by rewrite Hsave. }
    destruct Hopen as [Hlt | (attempt & Hlast & Hgone)].
    + destruct (Z.leb_spec 5 (loginAttempts u)); [lia|]. by rewrite Hv.
    + rewrite Hlast. destruct (5 <=? loginAttempts u); [|by rewrite Hv].
      destruct (Z.ltb_spec (now env2) (attempt + 30 * 60 * 1000)); [lia|].
      by rewrite Hv.
  - intros attempt H5 Hlast Hlocked. rewrite Hlast.
    destruct (Z.leb_spec 5 (loginAttempts u)); [|lia].
    destruct (Z.ltb_spec (now env2) (attempt + 30 * 60 * 1000)); [|lia].
    discriminate.
Qed.

Lemma login_unknown_or_wrong_witness :
  let nobody := mongo [] 3000 "" in
  let somebody := mongo [ada] 3000 "" in
  let body := ada_login "wrong" in
  findOne nobody "ada@example.com" = Ok None
  ∧ findOne somebody "ada@example.com" = Ok (Some ada)
  ∧ (login nobody body).1 = invalid_credentials
  ∧ (login somebody body).1 = (login nobody body).1.
Proof.
  split; [reflexivity|]. split; [reflexivity|].
  apply (proj1 (login_unknown_or_wrong (mongo [] 3000 "") (mongo [ada] 3000 "")
                  (ada_login "wrong") ada eq_refl eq_refl eq_refl eq_refl)).
  - left. simpl. lia.
  - reflexivity.
  - eexists. vm_compute. reflexivity.
Defined.

(** X10.  A lock that has run out does not clear the counter.  When a locked
    account's 30 minutes have passed and the next login fails, the document
    saved has a counter of at least 6 and the current time as
    [lastLoginAttempt]; a login that finds this document within the next 30
    minutes is answered 423 again, even with the right password. *)
Theorem login_relock (env1 env2 : Env) (body1 body2 : Login.Body) (u : UserDoc)
    (attempt : Z) :
  truthy (Login.email body1) = true → truthy (Login.password body1) = true →
  truthy (Login.email body2) = true → truthy (Login.password body2) = true →
  findOne env1 (toLowerCase (default "" (Login.email body1))) = Ok (Some u) →
  5 ≤ loginAttempts u → lastLoginAttempt u = Some attempt →
  attempt + 30 * 60 * 1000 ≤ now env1 →
  bcrypt_compare env1 (default "" (Login.password body1)) (password u) = Ok false →
  save env1 (login_failure_document env1 u) = Ok (login_failure_document env1 u) →
  findOne env2 (toLowerCase (default "" (Login.email body2)))
    = Ok (Some (login_failure_document env1 u)) →
  now env2 < now env1 + 30 * 60 * 1000 →
  login env1 body1 = (invalid_credentials, Some (login_failure_document env1 u))
  ∧ 6 ≤ loginAttempts (login_failure_document env1 u)
  ∧ login env2 body2 = (Send 423 locked_body, None).
Proof.
  intros He1 Hp1 He2 Hp2 Hf1 H5 Hlast Hgone Hcmp Hsave Hf2 Hsoon.
  rewrite (login_found env1 body1 u He1 Hp1 Hf1), Hlast.
  rewrite (login_found env2 body2 _ He2 Hp2 Hf2). simpl.
  destruct (Z.leb_spec 5 (loginAttempts u)); [|lia].
  destruct (Z.ltb_spec (now env1) (attempt + 30 * 60 * 1000)); [lia|].
  destruct (Z.leb_spec 5 (loginAttempts u + 1)); [|lia].
  destruct (Z.ltb_spec (now env2) (now env1 + 30 * 60 * 1000)); [|lia].
  split_and!; [|lia|done].
  unfold login_verify. rewrite Hcmp. fold (login_failure_document env1 u).
  by rewrite Hsave.
Qed.

Lemma login_relock_witness :
  let env1 := mongo [locked_ada] 1802000 "" in
  let failed := login_failure_document env1 locked_ada in
  let env2 := mongo [failed] 1900000 "" in
  login env1 (ada_login "wrong") = (invalid_credentials, Some failed)
  ∧ 6 ≤ loginAttempts failed
  ∧ login env2 (ada_login "correct horse") = (Send 423 locked_body, None).
Proof.
  apply (login_relock (mongo [locked_ada] 1802000 "")
           (mongo [login_failure_document (mongo [locked_ada] 1802000 "") locked_ada]
                  1900000 "")
           (ada_login "wrong") (ada_login "correct horse") locked_ada 2000);
    try reflexivity; simpl; lia.
Defined.

Lemma login_userResponse_keys (u : UserDoc) :
  ¬ In "password" (map fst (login_userResponse u)).
Proof.
  unfold login_userResponse. rewrite map_app. simpl.
  destruct (lastLogin u); simpl; intuition discriminate.
Qed.

(** X11.  Every successful login response carries the token signed for the
    saved user, with expiry "30d" when [rememberMe] is set and "7d"
    otherwise, and a user object that has no [password] property, although
    the document was loaded with its password. *)
Theorem login_success_body (env : Env) (body : Login.Body) (b : Json)
    (saved : option UserDoc) :
  login env body = (Send 200 b, saved) →
  ∃ u token,
    saved = Some u
    ∧ jwt_sign env (token_payload u) (if Login.rememberMe body then "30d" else "7d")
      = Ok token
    ∧ b = JObj [("success", JBool true);
                ("message", JStr "Login successful");
                ("user", JObj (login_userResponse u));
                ("token", JStr token)]
    ∧ ¬ In "password" (map fst (login_userResponse u)).
Proof.
  assert (∀ u0, login_verify env body u0 = (Send 200 b, saved) →
    ∃ u token,
      saved = Some u
      ∧ jwt_sign env (token_payload u) (if Login.rememberMe body then "30d" else "7d")
        = Ok token
      ∧ b = JObj [("success", JBool true);
                  ("message", JStr "Login successful");
                  ("user", JObj (login_userResponse u));
                  ("token", JStr token)]
      ∧ ¬ In "password" (map fst (login_userResponse u))) as Hverify.
  { intros u0. unfold login_verify, login_catch, invalid_credentials.
    destruct (bcrypt_compare env _ _) as [[|]|]; [| |discriminate].
    - destruct (save env _) as [u|]; [|discriminate].
      destruct (jwt_sign env _ _) as [token|] eqn:Hsign; [|discriminate].
      intros [= <- <-]. exists u, token. split_and!; try done.
      apply login_userResponse_keys.
    - destruct (save env _); discriminate. }
  unfold login, login_catch, invalid_credentials.
  destruct (negb _ || negb _); [discriminate|].
  destruct (findOne env _) as [[u0|]|]; [|discriminate..].
  destruct (5 <=? loginAttempts u0); [|apply Hverify].
  destruct (lastLoginAttempt u0); [|discriminate].
  destruct (now env <? _); [discriminate | apply Hverify].
Qed.

Lemma login_success_body_witness :
  ∃ u token,
    Some (login_success_document (mongo [ada] 3000 "") ada) = Some u
    ∧ jwt_sign (mongo [ada] 3000 "") (token_payload u) "7d" = Ok token
    ∧ JObj [("success", JBool true);
            ("message", JStr "Login successful");
            ("user", JObj (login_userResponse
                             (login_success_document (mongo [ada] 3000 "") ada)));
            ("token", JStr "jwt.u1")]
      = JObj [("success", JBool true);
              ("message", JStr "Login successful");
              ("user", JObj (login_userResponse u));
              ("token", JStr token)]
    ∧ ¬ In "password" (map fst (login_userResponse u)).
Proof.
  apply (login_success_body (mongo [ada] 3000 "") (ada_login "correct horse")).
  vm_compute. reflexivity.
Defined.

(** ** routes/auth.js: signup, check-email and the two email patterns *)

(** X12.  POST /check-email and POST /signup agree: for a body that passes
    the signup checks, signup answers 409 exactly when check-email, asked
    about the same address on the same host, reports it as not available. *)
Theorem signup_conflict_iff_unavailable (env : Env) (body : Signup.Body) :
  signup_valid body = true →
  (status_of (signup env body).1 = Some 409
   ↔ check_email env (Signup.email body)
     = Send 200
         (JObj [("available", JBool false);
                ("email", JStr (toLowerCase (default "" (Signup.email body))))])).
Proof.
  intros Hvalid. unfold signup, check_email, signup_catch.
  unfold signup_valid in Hvalid.
  destruct (truthy (Signup.firstName body)); simpl in *; [|done].
  destruct (truthy (Signup.lastName body)); simpl in *; [|done].
  destruct (truthy (Signup.email body)); simpl in *; [|done].
  destruct (truthy (Signup.password body)); simpl in *; [|done].
  destruct (test emailRegex _); simpl in *; [|done].
  destruct (Z.leb_spec 8 (Js.length (default "" (Signup.password body)))); [|done].
  destruct (Z.ltb_spec (Js.length (default "" (Signup.password body))) 8); [lia|].
  destruct (findOne env _) as [[existing|]|]; simpl.
  - done.
  - split; [|discriminate].
    destruct (bcrypt_hash env _ _); simpl; [|discriminate].
    destruct (save env _); simpl; [|discriminate].
    destruct (jwt_sign env _ _); simpl; discriminate.
  - split; discriminate.
Qed.

Lemma signup_conflict_iff_unavailable_witness :
  signup_valid ada_body = true
  ∧ status_of (signup (mongo [ada] 5000 "u9") ada_body).1 = Some 409.
Proof.
  split; [reflexivity|].
  apply (proj2 (signup_conflict_iff_unavailable (mongo [ada] 5000 "u9") ada_body
                  eq_refl)).
  reflexivity.
Defined.

Lemma all_chars_app (p : ascii → bool) (s1 s2 : string) :
  all_chars p (s1 ++ s2) = all_chars p s1 && all_chars p s2.
Proof.
  induction s1 as [|c s1 IH]; simpl; [done|]. by rewrite IH, andb_assoc.
Qed.

Lemma all_chars_weaken (p q : ascii → bool) (s : string) :
  (∀ c, p c = true → q c = true) → all_chars p s = true → all_chars q s = true.
Proof.
  intros Hpq. induction s as [|c s IH]; simpl; [done|].
  intros [Hc Hs]%andb_true_iff. rewrite (Hpq c Hc). auto.
Qed.

Lemma lower_char_space (c : ascii) : is_space (lower_char c) = is_space c.
Proof. destruct c as [[] [] [] [] [] [] [] []]; reflexivity. Qed.

Lemma all_chars_toLowerCase (s : string) :
  all_chars (fun c => negb (is_space c)) s = true →
  all_chars (fun c => negb (is_space c)) (toLowerCase s) = true.
Proof.
  induction s as [|c s IH]; simpl; [done|].
  intros [Hc Hs]%andb_true_iff. by rewrite lower_char_space, Hc, IH.
Qed.

Lemma trim_no_space (s : string) :
  all_chars (fun c => negb (is_space c)) s = true → trim s = s.
Proof.
  intros Hall. unfold trim.
  assert (trim_start s = s) as ->.
  { destruct s as [|c s]; simpl in *; [done|].
    apply andb_true_iff in Hall as [Hc _]. by destruct (is_space c). }
  induction s as [|c s IH]; simpl in *; [done|].
  apply andb_true_iff in Hall as [Hc Hs]. rewrite (IH Hs).
  destruct s; [|done]. by destruct (is_space c).
Qed.

Lemma emailRegex_no_space (s : string) :
  test emailRegex s = true → all_chars (fun c => negb (is_space c)) s = true.
Proof.
  intros (a & b & c & -> & _ & _ & _ & Ha & Hb & Hc)%emailRegex_shape.
  assert (∀ x, all_chars plain_char x = true →
               all_chars (fun c => negb (is_space c)) x = true) as Hplain.
  { intros x. apply all_chars_weaken. intros ch. unfold plain_char.
    by destruct (is_space ch). }
  rewrite !all_chars_app. simpl. rewrite ?all_chars_app. simpl.
  by rewrite (Hplain a Ha), (Hplain b Hb), (Hplain c Hc).
Qed.

(** X13.  For a body that passes the signup checks, the address stored in
    the new document, lowercased and trimmed, is the very key the route
    looked up to decide on the conflict, lowercased only: the format check
    leaves nothing to trim. *)
Theorem signup_stores_lookup_key (env : Env) (body : Signup.Body)
    (hashedPassword : string) :
  signup_valid body = true →
  email (signup_document env body hashedPassword)
  = toLowerCase (default "" (Signup.email body)).
Proof.
  unfold signup_valid. rewrite !andb_true_iff.
  intros [[_ Hfmt] _]. simpl.
  apply trim_no_space, all_chars_toLowerCase, emailRegex_no_space, Hfmt.
Qed.

Lemma signup_stores_lookup_key_witness :
  signup_valid ada_body = true
  ∧ email (signup_document (mongo [] 1000 "u1") ada_body "hash") = "ada@example.com".
Proof.
  split; [reflexivity|].
  apply (signup_stores_lookup_key (mongo [] 1000 "u1") ada_body "hash" eq_refl).
Defined.

Lemma matches_classes_in (q : ascii → bool) (r : regex) (s : string) :
  matches r s → classes_in q r → all_chars q s = true.
Proof.
  induction 1 as [|p c Hp|r1 r2 s1 s2 _ IH1 _ IH2|r1 r2 s _ IH|r1 r2 s _ IH
                 |r|r s1 s2 _ IH1 _ IH2]; simpl.
  - done.
  - intros Hq. by rewrite (Hq c Hp).
  - intros [H1 H2]. by rewrite all_chars_app, IH1, IH2.
  - intros [H1 _]. auto.
  - intros [_ H2]. auto.
  - done.
  - intros Hr. by rewrite all_chars_app, IH1, IH2.
Qed.

Lemma address_char_plain (c : ascii) : address_char c = true → plain_char c = true.
Proof. destruct c as [[] [] [] [] [] [] [] []]; vm_compute; done. Qed.

Lemma word_address_char (c : ascii) : word c = true → address_char c = true.
Proof. unfold address_char. by intros ->. Qed.

Lemma matches_Cat_inv (r1 r2 : regex) (s : string) :
  matches (Cat r1 r2) s →
  ∃ s1 s2, s = (s1 ++ s2)%string ∧ matches r1 s1 ∧ matches r2 s2.
Proof. inversion 1; subst; eauto. Qed.

Lemma matches_Cls_inv (p : ascii → bool) (s : string) :
  matches (Cls p) s → ∃ c, s = String c "" ∧ p c = true.
Proof. inversion 1; subst; eauto. Qed.

(** A run of words joined by dots or dashes is not empty and has no [@] and
    no white space. *)
Lemma schema_words (dots : regex) (x : string) :
  classes_in address_char dots →
  matches (Cat (Plus (Cls word)) (Star (Cat (Opt dots) (Plus (Cls word))))) x →
  x ≠ "" ∧ all_chars plain_char x = true.
Proof.
  intros Hdots Hx. split.
  - apply matches_Cat_inv in Hx as (a & b & -> & [Ha _]%plus_class_matches & _).
    by destruct a.
  - apply (all_chars_weaken address_char); [apply address_char_plain|].
    apply (matches_classes_in _ _ _ Hx). unfold Plus, Opt. cbn [classes_in].
    split_and!; try done; apply word_address_char.
Qed.

(** One or more top-level labels start with a dot and go on, not empty,
    without [@] or white space. *)
Lemma schema_labels (t : string) :
  matches (Plus (Cat (Chr ".") (Cat (Cls word) (Cat (Cls word) (Opt (Cls word)))))) t →
  ∃ y, t = String "." y ∧ y ≠ "" ∧ all_chars plain_char y = true.
Proof.
  intros Ht.
  assert (all_chars address_char t = true) as Hall.
  { apply (matches_classes_in _ _ _ Ht). unfold Plus, Chr, Opt. cbn [classes_in].
    split_and!; try done; try apply word_address_char;
      intros c <-%Ascii.eqb_eq; reflexivity. }
  apply matches_Cat_inv in Ht as (x & z & -> & Hx & _).
  apply matches_Cat_inv in Hx as (d & y & -> & Hd & Hy).
  apply matches_Cls_inv in Hd as (c & -> & <-%Ascii.eqb_eq).
  apply matches_Cat_inv in Hy as (w & y' & -> & Hw & _).
  apply matches_Cls_inv in Hw as (c & -> & _).
  exists ((String c "" ++ y') ++ z)%string. split; [reflexivity|].
  split; [discriminate|].
  apply (all_chars_weaken address_char); [apply address_char_plain|].
  simpl in Hall. exact Hall.
Qed.

(** X14.  Every address the schema's [match] pattern accepts passes the
    format check of the signup route: the route's check is the weaker one,
    so it never turns away an address the model would store. *)
Theorem schema_email_passes_route_check (s : string) :
  test schema_email_regex s = true → test emailRegex s = true.
Proof.
  rewrite test_matches. intros H. apply emailRegex_shape.
  unfold schema_email_regex in H. cbv zeta in H.
  assert (classes_in address_char
            (Cls (fun c => Ascii.eqb c "." || Ascii.eqb c "-"))) as Hdots.
  { intros c [Hc|Hc]%orb_true_iff; unfold address_char; rewrite Hc;
      by rewrite ?orb_true_r. }
  apply matches_Cat_inv in H as (local & rest & -> & Hlocal & H).
  apply matches_Cat_inv in H as (at_sign & rest' & -> & Hat & H).
  apply matches_Cls_inv in Hat as (c & -> & <-%Ascii.eqb_eq).
  apply matches_Cat_inv in H as (domain & labels & -> & Hdomain & Hlabels).
  apply (schema_words _ _ Hdots) in Hlocal as [Hl1 Hl2].
  apply (schema_words _ _ Hdots) in Hdomain as [Hd1 Hd2].
  apply schema_labels in Hlabels as (label & -> & Hy1 & Hy2).
  exists local, domain, label. split_and!; done.
Qed.

Lemma schema_email_passes_route_check_witness :
  test schema_email_regex "ada@example.com" = true
  ∧ test emailRegex "ada@example.com" = true
  ∧ test emailRegex "ida@library.info" = true
  ∧ test schema_email_regex "ida@library.info" = false.
Proof.
  split; [reflexivity|]. split; [|split; reflexivity].
  apply (schema_email_passes_route_check "ada@example.com"). reflexivity.
Defined.

(** ** routes/auth.js: resetting, changing and deleting *)

(** X16.  The route loads the user with a plain [findById], and the schema
    marks [passwordResetToken] as [select: false].  Whenever the lookup
    returns documents without that path, POST /reset-password never answers
    success and never saves: a request with both fields gets 400 for a short
    password, 401, or 500. *)
Theorem reset_password_unselected_token (env : Env) (body : ResetPassword.Body) :
  (∀ id u, findById env id = Ok (Some u) → passwordResetToken u = None) →
  (reset_password env body).2 = None
  ∧ (status_of (reset_password env body).1 = Some 400
     ∨ status_of (reset_password env body).1 = Some 401
     ∨ status_of (reset_password env body).1 = Some 500).
Proof.
  intros Hproj.
  unfold reset_password, invalid_reset_token, reset_password_catch.
  destruct (negb _ || negb _); simpl; [auto|].
  destruct (Js.length _ <? 8); simpl; [auto|].
  destruct (jwt_verify env _) as [decoded|]; simpl; [|auto].
  destruct (findById env _) as [[u|]|] eqn:Hf; simpl; [|auto..].
  rewrite (Hproj _ _ Hf). case_bool_decide; [done|]. simpl. auto.
Qed.

Lemma reset_password_unselected_token_witness :
  let env := projecting [ada_resetting] 2000 in
  passwordResetToken ada_resetting = Some "jwt.u1"
  ∧ (∀ id u, findById env id = Ok (Some u) → passwordResetToken u = None)
  ∧ status_of (reset_password env ada_reset_body).1 = Some 401
  ∧ (reset_password env ada_reset_body).2 = None.
Proof.
  assert (∀ id u, findById (projecting [ada_resetting] 2000) id = Ok (Some u)
                  → passwordResetToken u = None) as Hproj.
  { intros id u. unfold projecting. cbn [findById].
    destruct (find_id [ada_resetting] id) as [v|]; cbn [fmap option_fmap option_map];
      [|discriminate].
    by intros [= <-]. }
  split; [reflexivity|]. split; [exact Hproj|]. split; [vm_compute; reflexivity|].
  apply (proj1 (reset_password_unselected_token (projecting [ada_resetting] 2000)
                  ada_reset_body Hproj)).
Defined.

Lemma auth_never_sends_200 (env : Env) (req req' : Request) (b : Json) :
  auth env req ≠ (req', Send 200 b).
Proof.
  unfold auth, auth_catch. repeat case_match; discriminate.
Qed.

(** X17.  POST /change-password behind [auth].  [env] is the host as [auth]
    meets it and [env'] the host as the handler meets it, after [auth] has
    saved the user's activity.  The answer is success exactly when: the
    request carries a non-empty token that verifies, [auth] finds the user
    and saves it; both passwords are supplied and the new one has at least 8
    characters; the handler's own lookup finds the user, the current password
    matches its stored hash, and hashing and saving succeed.  What the
    handler saves is the user of its own lookup with the new hash as
    password. *)
Theorem change_password_success (env env' : Env) (body : ChangePassword.Body)
    (req : Request) (b : Json) (saved : option UserDoc) :
  behind_auth env (change_password env' body) req = (Send 200 b, saved) ↔
  ∃ token decoded u0 s0 u current new hashed u',
    request_token req = Some token ∧ token ≠ ""
    ∧ jwt_verify env token = Ok decoded
    ∧ findById env (Jwt.userId decoded) = Ok (Some u0)
    ∧ save env (set_lastActive (now env) u0) = Ok s0
    ∧ ChangePassword.currentPassword body = Some current ∧ current ≠ ""
    ∧ ChangePassword.newPassword body = Some new
    ∧ 8 ≤ Js.length new
    ∧ findById env' (Jwt.userId decoded) = Ok (Some u)
    ∧ bcrypt_compare env' current (password u) = Ok true
    ∧ bcrypt_hash env' new 12 = Ok hashed
    ∧ save env' (set_password hashed u) = Ok u'
    ∧ saved = Some u'
    ∧ b = password_changed.
Proof.
  unfold behind_auth. split.
  - destruct (auth env req) as [req' out] eqn:Hauth.
    destruct out as [h|s body'].
    2: { intros [= -> _ _]. exfalso. revert Hauth. apply auth_never_sends_200. }
    apply auth_next_iff in Hauth
      as (token & decoded & u0 & s0 & Htok & Hne & Hv & Hf & Hs0 & -> & _).
    unfold change_password, change_password_catch.
    destruct (ChangePassword.currentPassword body) as [current|]; [|discriminate].
    destruct (ChangePassword.newPassword body) as [new|]; [|by rewrite orb_true_r].
    simpl. destruct (String.eqb_spec current ""); [discriminate|].
    destruct (String.eqb_spec new ""); [discriminate|]. simpl.
    destruct (Z.ltb_spec (Js.length new) 8); [discriminate|].
    destruct (findById env' _) as [[u|]|] eqn:Hf'; [|discriminate..].
    destruct (bcrypt_compare env' current (password u)) as [[|]|] eqn:Hc;
      [|discriminate..].
    destruct (bcrypt_hash env' new 12) as [hashed|] eqn:Hh; [|discriminate].
    destruct (save env' _) as [u'|] eqn:Hs; [|discriminate].
    intros [= <- <-]. exists token, decoded, u0, s0, u, current, new, hashed, u'.
    by split_and!.
  - intros (token & decoded & u0 & s0 & u & current & new & hashed & u' & Htok
            & Hne & Hv & Hf & Hs0 & Hcur & Hcne & Hnew & Hlen & Hf' & Hc & Hh
            & Hs & -> & ->).
    assert (auth env req
            = (set_user (Some decoded) (Some (set_lastActive (now env) u0)) req,
               Next [])) as ->.
    { apply auth_next_iff. exists token, decoded, u0, s0. by split_and!. }
    unfold change_password. rewrite Hcur, Hnew. simpl.
    destruct (String.eqb_spec current ""); [done|].
    destruct (String.eqb_spec new "") as [->|_];
      [unfold Js.length in Hlen; simpl in Hlen; lia|]. simpl.
    destruct (Z.ltb_spec (Js.length new) 8); [lia|].
    by rewrite Hf', Hc, Hh, Hs.
Qed.

Lemma change_password_success_witness :
  let env := plain_query [ada] 2000 in
  let env' := mongo [set_lastActive 2000 ada] 2000 "" in
  (auth env (bearer "jwt.u1")).2 = Next []
  ∧ password <$> userDoc (auth env (bearer "jwt.u1")).1 = Some None
  ∧ behind_auth env (change_password env' change_to_staple) (bearer "jwt.u1")
    = (Send 200 password_changed,
       Some (set_password (toy_hash "battery staple") (set_lastActive 2000 ada))).
Proof.
  split; [reflexivity|]. split; [reflexivity|].
  apply (proj2 (change_password_success (plain_query [ada] 2000)
                  (mongo [set_lastActive 2000 ada] 2000 "") change_to_staple
                  (bearer "jwt.u1") _ _)).
  exists "jwt.u1", (Jwt.mkPayload "u1" "ada@example.com" "individual"),
    (default_projection ada), (set_lastActive 2000 (default_projection ada)),
    (set_lastActive 2000 ada), "correct horse", "battery staple",
    (toy_hash "battery staple"),
    (set_password (toy_hash "battery staple") (set_lastActive 2000 ada)).
  split_and!; try reflexivity; try discriminate.
Defined.

(** X18.  DELETE /account, behind [auth], deletes only the account the
    verified token names, only with the confirmation text
    [DELETE_MY_ACCOUNT] exactly, and only after the submitted password
    matched the stored hash; whenever it reports an id as deleted, its
    answer is 200. *)
Theorem delete_account_guarded (env : Env) (findByIdAndDelete : string → Exc unit)
    (body : DeleteAccount.Body) (req : Request) (out : Outcome) (id : string) :
  behind_auth env (delete_account env findByIdAndDelete body) req = (out, Some id) →
  ∃ token decoded u submitted,
    request_token req = Some token
    ∧ jwt_verify env token = Ok decoded
    ∧ Jwt.userId decoded = id
    ∧ findById env id = Ok (Some u)
    ∧ DeleteAccount.confirmation body = Some "DELETE_MY_ACCOUNT"
    ∧ DeleteAccount.password body = Some submitted
    ∧ bcrypt_compare env submitted (password u) = Ok true
    ∧ findByIdAndDelete id = Ok tt
    ∧ status_of out = Some 200.
Proof.
  unfold behind_auth. destruct (auth env req) as [req' o] eqn:Hauth.
  destruct o as [h|s body']; [|discriminate].
  apply auth_next_iff in Hauth
    as (token & decoded & u0 & _ & Htok & _ & Hv & Hf & _ & -> & _).
  unfold delete_account, delete_account_catch.
  destruct (DeleteAccount.password body) as [submitted|]; [|discriminate].
  simpl. destruct (negb (negb _)); [discriminate|]. simpl.
  case_bool_decide as Hconf; [|discriminate]. simpl. rewrite Hf.
  destruct (bcrypt_compare env submitted (password u0)) as [[|]|] eqn:Hc;
    [|discriminate..].
  destruct (findByIdAndDelete _) as [[]|] eqn:Hd; [|discriminate].
  intros [= <- <-]. exists token, decoded, u0, submitted. by split_and!.
Qed.

Lemma delete_account_guarded_witness :
  let run body :=
    behind_auth (mongo [ada] 2000 "")
      (delete_account (mongo [ada] 2000 "") delete_ok body) (bearer "jwt.u1") in
  (run (DeleteAccount.mkBody (Some "correct horse") (Some "delete_my_account"))).2 = None
  ∧ (run (DeleteAccount.mkBody (Some "wrong") (Some "DELETE_MY_ACCOUNT"))).2 = None
  ∧ ∃ u, findById (mongo [ada] 2000 "") "u1" = Ok (Some u)
         ∧ bcrypt_compare (mongo [ada] 2000 "") "correct horse" (password u) = Ok true.
Proof.
  split; [vm_compute; reflexivity|]. split; [vm_compute; reflexivity|].
  destruct (delete_account_guarded (mongo [ada] 2000 "") delete_ok
              (DeleteAccount.mkBody (Some "correct horse") (Some "DELETE_MY_ACCOUNT"))
              (bearer "jwt.u1")
              (Send 200 (JObj [("success", JBool true);
                               ("message", JStr "Account deleted successfully")]))
              "u1")
    as (token & decoded & u & submitted & _ & _ & _ & Hf & _ & Hp & Hc & _).
  { vm_compute. reflexivity. }
  injection Hp as <-. exists u. by split.
Defined.

(** X19.  POST /forgot-password saves only for a known account, and what it
    hands to [save] is that account's document with the signed reset token
    and an expiry one hour ahead, nothing else changed; for an unknown
    address, a missing address or any failure it saves nothing. *)
Theorem forgot_password_saves (env : Env) (email : option string) (d : UserDoc) :
  (forgot_password env email).2 = Some d →
  ∃ u resetToken,
    truthy email = true
    ∧ findOne env (toLowerCase (default "" email)) = Ok (Some u)
    ∧ jwt_sign env (JObj [("userId", JStr (_id u));
                          ("purpose", JStr "password-reset")]) "1h"
      = Ok resetToken
    ∧ save env (set_passwordReset resetToken (now env + 60 * 60 * 1000) u) = Ok d
    ∧ clear_passwordReset
        (set_passwordReset resetToken (now env + 60 * 60 * 1000) u)
      = clear_passwordReset u
    ∧ status_of (forgot_password env email).1 = Some 200.
Proof.
  unfold forgot_password, forgot_password_catch.
  destruct (truthy email); simpl; [|discriminate].
  destruct (findOne env _) as [[u|]|]; simpl; [|discriminate..].
  destruct (jwt_sign env _ _) as [resetToken|] eqn:Hsign; simpl; [|discriminate].
  destruct (save env _) as [d'|] eqn:Hsave; simpl; [|discriminate].
  intros [= <-]. exists u, resetToken. by split_and!.
Qed.

Lemma forgot_password_saves_witness :
  (forgot_password (mongo [ada] 1000 "") (Some "Ada@Example.com")).2
  = Some ada_resetting
  ∧ (forgot_password (mongo [] 1000 "") (Some "Ada@Example.com")).2 = None
  ∧ ∃ u, findOne (mongo [ada] 1000 "") "ada@example.com" = Ok (Some u)
         ∧ save (mongo [ada] 1000 "") (set_passwordReset "jwt.u1" 3601000 u)
           = Ok ada_resetting.
Proof.
  split; [vm_compute; reflexivity|]. split; [vm_compute; reflexivity|].
  destruct (forgot_password_saves (mongo [ada] 1000 "") (Some "Ada@Example.com")
              ada_resetting)
    as (u & resetToken & _ & Hf & Hsign & Hsave & _).
  { vm_compute. reflexivity. }
  exists u. split; [exact Hf|].
  vm_compute in Hf. injection Hf as <-.
  vm_compute in Hsign. injection Hsign as <-. exact Hsave.
Defined.

(** ** server.js: what the global error handler lets out *)

(** X20.  Outside development, the global error handler's response to an
    error that is not a [ValidationError] depends on the error's name, code
    and status only: the error's message is never sent. *)
Theorem global_error_handler_hides_message (e1 e2 : Error) :
  err_name e1 = err_name e2 →
  err_code e1 = err_code e2 →
  err_status e1 = err_status e2 →
  err_name e1 ≠ "ValidationError" →
  global_error_handler false e1 = global_error_handler false e2.
Proof.
  intros Hn Hc Hs Hv. unfold global_error_handler.
  rewrite <- Hn, <- Hc, <- Hs.
  destruct (String.eqb_spec (err_name e1) "ValidationError"); [done|].
  reflexivity.
Qed.

Lemma global_error_handler_hides_message_witness :
  global_error_handler false (mkError "TypeError" None None "secret path /etc/x")
  = global_error_handler false (mkError "TypeError" None None "").
Proof.
  apply global_error_handler_hides_message; try reflexivity. discriminate.
Defined.

(** ** middleware/auth.js: [optionalAuth] and the quota *)

(** X21.  [optionalAuth] always calls [next()], and what it leaves on the
    request is decided case by case.  When the token verifies, the user is
    found and saving its activity succeeds, the payload and the user, with
    [lastActive] at the current time, are attached.  When the token verifies
    but names no user, the request is passed on as it came.  When the token
    is missing or empty, or verifying, the lookup or the save throws, both
    [req.user] and [req.userDoc] are cleared. *)
Theorem optionalAuth_attaches (env : Env) (req : Request) :
  (optionalAuth env req).2 = Next []
  ∧ (∀ token decoded u saved,
       request_token req = Some token → token ≠ "" →
       jwt_verify env token = Ok decoded →
       findById env (Jwt.userId decoded) = Ok (Some u) →
       save env (set_lastActive (now env) u) = Ok saved →
       (optionalAuth env req).1
       = set_user (Some decoded) (Some (set_lastActive (now env) u)) req)
  ∧ (∀ token decoded,
       request_token req = Some token → token ≠ "" →
       jwt_verify env token = Ok decoded →
       findById env (Jwt.userId decoded) = Ok None →
       (optionalAuth env req).1 = req)
  ∧ (request_token req = None ∨ request_token req = Some ""
     ∨ (∃ token e, request_token req = Some token
                   ∧ jwt_verify env token = Throw e)
     ∨ (∃ token decoded e,
          request_token req = Some token ∧ jwt_verify env token = Ok decoded
          ∧ findById env (Jwt.userId decoded) = Throw e)
     ∨ (∃ token decoded u e,
          request_token req = Some token ∧ jwt_verify env token = Ok decoded
          ∧ findById env (Jwt.userId decoded) = Ok (Some u)
          ∧ save env (set_lastActive (now env) u) = Throw e)
     → (optionalAuth env req).1 = set_user None None req).
Proof.
  unfold optionalAuth. split_and!.
  - destruct (request_token req) as [token|]; [|done].
    destruct (String.eqb token ""); [done|].
    destruct (jwt_verify env token); [|done].
    destruct (findById env _) as [[u|]|]; [|done..].
    by destruct (save env _).
  - intros token decoded u saved -> Hne -> -> ->.
    by destruct (String.eqb_spec token "").
  - intros token decoded -> Hne -> ->.
    by destruct (String.eqb_spec token "").
  - intros [-> | [-> | [(token & e & -> & ->) | [(token & decoded & e & -> & -> & ->)
                        | (token & decoded & u & e & -> & -> & -> & ->)]]]];
      try done; by destruct (String.eqb token "").
Qed.

Lemma optionalAuth_attaches_witness :
  let env := mongo [ada] 2000 "" in
  let carried := as_user ada in
  (* a verified token of a stored user: payload and document attached *)
  (optionalAuth env (bearer "jwt.u1")).1
  = set_user (Some (Jwt.mkPayload "u1" "ada@example.com" "individual"))
      (Some (set_lastActive 2000 ada)) (bearer "jwt.u1")
  (* a verified token that names no user: the request as it came *)
  ∧ (optionalAuth env
       (mkRequest (Some "Bearer jwt.u9") None None "10.0.0.1" (user carried)
          (userDoc carried))).1
    = mkRequest (Some "Bearer jwt.u9") None None "10.0.0.1" (user carried)
        (userDoc carried)
  (* a token that does not verify: both fields cleared *)
  ∧ (optionalAuth env
       (mkRequest (Some "Bearer garbage") None None "10.0.0.1" (user carried)
          (userDoc carried))).1
    = mkRequest (Some "Bearer garbage") None None "10.0.0.1" None None.
Proof.
  split_and!.
  - apply (proj1 (proj2 (optionalAuth_attaches
                           (mongo [ada] 2000 "")
                           (bearer "jwt.u1")))
             "jwt.u1" (Jwt.mkPayload "u1" "ada@example.com" "individual") ada
             (set_lastActive 2000 ada)); try reflexivity. discriminate.
  - apply (proj1 (proj2 (proj2 (optionalAuth_attaches
                                  (mongo [ada] 2000 "")
                                  (mkRequest (Some "Bearer jwt.u9") None None
                                     "10.0.0.1" (user (as_user ada))
                                     (userDoc (as_user ada))))))
             "jwt.u9" (Jwt.mkPayload "u9" "" "")); try reflexivity. discriminate.
  - apply (proj2 (proj2 (proj2 (optionalAuth_attaches
                                  (mongo [ada] 2000 "")
                                  (mkRequest (Some "Bearer garbage") None None
                                     "10.0.0.1" (user (as_user ada))
                                     (userDoc (as_user ada))))))).
    right. right. left. eexists _, _. split; reflexivity.
Defined.

(** X22.  Behind [optionalAuth], a request on which nothing was attached
    before and whose token is missing, empty or fails to verify reaches
    [checkApiQuota] without a user and passes it, whatever the host and the
    stored counters: such requests are never quota-limited. *)
Theorem unverified_requests_skip_quota (env env' : Env) (req : Request) :
  userDoc req = None →
  (request_token req = None ∨ request_token req = Some ""
   ∨ ∃ token e, request_token req = Some token ∧ jwt_verify env token = Throw e) →
  (checkApiQuota env' (optionalAuth env req).1).2 = Next []
  ∧ user (optionalAuth env req).1 = None.
Proof.
  intros Hdoc Hbad. unfold optionalAuth.
  assert (checkApiQuota env' (set_user None None req) = (set_user None None req, Next []))
    as Hanon by reflexivity.
  destruct Hbad as [-> | [-> | (token & e & -> & Hv)]]; simpl; [done | done |].
  destruct (String.eqb token ""); [done|]. by rewrite Hv.
Qed.

Lemma unverified_requests_skip_quota_witness :
  let req := mkRequest (Some "Bearer garbage") None None "10.0.0.1" None None in
  let env := mongo [spent_user] 43260000 "" in
  userDoc req = None
  ∧ (∃ token e, request_token req = Some token ∧ jwt_verify env token = Throw e)
  ∧ status_of (checkApiQuota env (as_user spent_user)).2 = Some 429
  ∧ (checkApiQuota env (optionalAuth env req).1).2 = Next [].
Proof.
  assert (∃ token e,
            request_token (mkRequest (Some "Bearer garbage") None None "10.0.0.1"
                             None None) = Some token
            ∧ jwt_verify (mongo [spent_user] 43260000 "") token = Throw e) as Hbad.
  { eexists _, _. split; vm_compute; reflexivity. }
  split; [reflexivity|]. split; [exact Hbad|]. split; [vm_compute; reflexivity|].
  apply (unverified_requests_skip_quota (mongo [spent_user] 43260000 "")
           (mongo [spent_user] 43260000 "")
           (mkRequest (Some "Bearer garbage") None None "10.0.0.1" None None)
           eq_refl).
  right. right. exact Hbad.
Defined.

(** X23.  The daily limit starts afresh with the day.  On a new calendar
    day (or on a user's first request ever) the daily counter becomes 1, so
    on a host that stores what it is given [checkApiQuota] rejects the
    request exactly when the updated monthly counter exceeds the monthly
    limit of a limited tier, however high the daily counter stood. *)
Theorem checkApiQuota_new_day (env : Env) (doc : UserDoc) :
  persists env →
  new_calendar_day env doc →
  dailyRequests (apiUsage (updateApiUsage env doc).1) = 1
  ∧ (status_of (checkApiQuota env (as_user doc)).2 = Some 429
     ↔ ∃ d m, tier_limits (subscription_type doc) = Some (d, m)
              ∧ m < monthlyRequests (apiUsage doc) + 1).
Proof.
  intros Hp Hnew.
  pose proof (checkApiQuota_step env doc Hp) as (_ & Hyes & Hno).
  pose proof (updateApiUsage_counters env doc) as (Hday & _ & Hmonth & _ & _ & Hq).
  cbn zeta in *. specialize (Hday Hnew). split; [done|].
  rewrite Hday, Hmonth in Hq. unfold over_limit in Hq.
  destruct (quotaExceeded (apiUsage (updateApiUsage env doc).1)) eqn:Hflag.
  - rewrite (Hyes eq_refl). split; [intros _ | done].
    destruct Hq as [Hq _]. specialize (Hq eq_refl).
    destruct (subscription_type doc); simpl in *; try done;
      (destruct Hq as [?|?]; [lia | eauto]).
  - rewrite (Hno eq_refl). split; [discriminate|].
    intros (d & m & Htier & Hm). destruct Hq as [_ Hq].
    rewrite Htier in Hq. assert (false = true); [|done]. apply Hq. by right.
Qed.

Lemma checkApiQuota_new_day_witness :
  let env := lenient 86400000 in
  persists env
  ∧ new_calendar_day env heavy_user
  ∧ dailyRequests (apiUsage heavy_user) = 100
  ∧ dailyRequests (apiUsage (updateApiUsage env heavy_user).1) = 1
  ∧ ¬ status_of (checkApiQuota env (as_user heavy_user)).2 = Some 429.
Proof.
  assert (persists (lenient 86400000)) as Hp by (intros d; reflexivity).
  assert (new_calendar_day (lenient 86400000) heavy_user) as Hnew.
  { vm_compute. discriminate. }
  destruct (checkApiQuota_new_day (lenient 86400000) heavy_user Hp Hnew) as [H1 H2].
  split; [exact Hp|]. split; [exact Hnew|]. split; [reflexivity|].
  split; [exact H1|]. intros H. apply H2 in H as (d & m & Htier & Hm).
  vm_compute in Htier. injection Htier as <- <-. vm_compute in Hm. discriminate.
Defined.

(** ** user.js: the virtual [accountAge] *)

(** X24.  [accountAge] is the number of whole days between [createdAt] and
    the current time: never negative for a creation time that is not in the
    future, and 0 for a document without [createdAt]. *)
Theorem accountAge_whole_days (env : Env) (this : UserDoc) :
  (createdAt this = None → accountAge env this = 0)
  ∧ (∀ created, createdAt this = Some created →
       86400000 * accountAge env this ≤ now env - created
         < 86400000 * (accountAge env this + 1)
       ∧ (created ≤ now env → 0 ≤ accountAge env this)).
Proof.
  unfold accountAge. split; [by intros ->|]. intros created ->.
  change (1000 * 60 * 60 * 24) with 86400000.
  pose proof (Z.div_mod (now env - created) 86400000 ltac:(lia)).
  pose proof (Z.mod_pos_bound (now env - created) 86400000 ltac:(lia)).
  split; [lia|]. intros Hle. apply Z.div_pos; lia.
Qed.

Lemma accountAge_whole_days_witness :
  createdAt ada = Some 1000
  ∧ accountAge (mongo [ada] (1000 + 3 * 86400000 + 5) "") ada = 3.
Proof.
  split; [reflexivity|].
  destruct (proj2 (accountAge_whole_days (mongo [ada] (1000 + 3 * 86400000 + 5) "") ada)
              1000 eq_refl) as [[Hlo Hhi] _].
  simpl in Hlo, Hhi. lia.
Defined.

(** ** routes/auth.js: the format check of signup *)

(** X25.  The email format check of the signup route accepts exactly the
    strings made of a local part, [@], a domain, a dot and a last label, in
    which the three parts are not empty and hold neither white space nor
    [@]; the domain may itself hold dots. *)
Theorem signup_format_check (s : string) :
  test emailRegex s = true ↔
  ∃ local domain label,
    s = (local ++ "@" ++ domain ++ "." ++ label)%string
    ∧ local ≠ "" ∧ domain ≠ "" ∧ label ≠ ""
    ∧ all_chars plain_char local = true
    ∧ all_chars plain_char domain = true
    ∧ all_chars plain_char label = true.
Proof. apply emailRegex_shape. Qed.
